(** * Fuzzy similarity and MMR re-ranking of [src/recommender.py], with the
      fuzzifier and the evaluator it is used with

    Shallow embedding of [FuzzySimilarity] and [FuzzyRecommender] over
    rationals, and of [GenreFuzzifier.binary_to_fuzzy] and the metrics of
    [RecommendationEvaluator].
    Python floats are modelled by [Q]; the transcendental operations
    ([np.sqrt], [np.log2]) and the draws of [np.random] are kept abstract
    (Section variables): a theorem holds for every choice of them, or
    states what it assumes of them.  Python exceptions ([KeyError], [ZeroDivisionError],
    [IndexError]) are the [None] of an [option] result. *)

From Stdlib Require Import String List ZArith QArith Qminmax Lia Lqa Sorted Permutation.
Import ListNotations.
Open Scope Q_scope.

(** ** Python helpers *)

(** [min(a, b)] and [max(a, b)]: Python returns the first argument unless
    the second is strictly smaller (resp. greater). *)
Definition qlt (a b : Q) : bool := negb (Qle_bool b a).
Definition py_min (a b : Q) : Q := if qlt b a then b else a.
Definition py_max (a b : Q) : Q := if qlt a b then b else a.

(** A Python dict as an association list in insertion order; [get] is
    [d.get(k, 0.0)] and [lookup] is [d[k]] ([None] = [KeyError]). *)
Definition dict := list (string * Q).

Fixpoint lookup (k : string) (d : dict) : option Q :=
  match d with
  | [] => None
  | (k', v) :: t => if String.eqb k k' then Some v else lookup k t
  end.

Definition get (d : dict) (k : string) : Q :=
  match lookup k d with Some v => v | None => 0 end.

(** Slicing [l[:n]] for an integer [n] (negative [n] counts from the end). *)
Definition py_take {A} (n : Z) (l : list A) : list A :=
  if (0 <=? n)%Z then firstn (Z.to_nat n) l
  else firstn (Z.to_nat (Z.of_nat (length l) + n)) l.

(** [l.pop(i)] for a non-negative index: the element and the rest. *)
Fixpoint pop_at {A} (i : nat) (l : list A) : option (A * list A) :=
  match l, i with
  | [], _ => None
  | x :: t, O => Some (x, t)
  | x :: t, S j =>
      match pop_at j t with
      | Some (y, t') => Some (y, x :: t')
      | None => None
      end
  end.

(** [sorted(l, key=key, reverse=True)] and [l.sort(key=key, reverse=True)]:
    a stable sort by descending key.  Any stable sort yields the same list;
    it is written here as an insertion sort.  An element is inserted in front
    of the first element whose key is not larger, so earlier elements stay in
    front of later ones with an equal key. *)
Section Sort.
Context {A : Type} (key : A -> Q).

Fixpoint insert_desc (x : A) (l : list A) : list A :=
  match l with
  | [] => [x]
  | y :: t => if Qle_bool (key y) (key x) then x :: y :: t else y :: insert_desc x t
  end.

Definition sort_desc (l : list A) : list A := fold_right insert_desc [] l.
End Sort.

(** ** Configuration ([src/config.py]) *)

Definition GENRES : list string :=
  ["unknown"; "Action"; "Adventure"; "Animation";
   "Children's"; "Comedy"; "Crime"; "Documentary";
   "Drama"; "Fantasy"; "Film-Noir"; "Horror";
   "Musical"; "Mystery"; "Romance"; "Sci-Fi";
   "Thriller"; "War"; "Western"]%string.

Definition is_unknown (g : string) : bool := String.eqb g "unknown".

(** ** FuzzySimilarity *)

Section Similarity.
Variable sqrt : Q -> Q.

(** [fuzzy_jaccard]: one pass over [GENRES] accumulating
    [(intersection, union)], skipping ['unknown']. *)
Definition fuzzy_jaccard (user_profile movie_profile : dict) : Q :=
  let '(intersection, union) :=
    fold_left (fun acc genre =>
      if is_unknown genre then acc else
      let user_val := get user_profile genre in
      let movie_val := get movie_profile genre in
      (fst acc + py_min user_val movie_val, snd acc + py_max user_val movie_val))
      GENRES (0, 0) in
  if qlt 0 union then intersection / union else 0.

(** [fuzzy_cosine]: accumulates [(dot_product, user_norm, movie_norm)];
    [x ** 2] is written [x * x]. *)
Definition fuzzy_cosine (user_profile movie_profile : dict) : Q :=
  let '(dot_product, user_norm, movie_norm) :=
    fold_left (fun acc genre =>
      if is_unknown genre then acc else
      let '(d, un, mn) := acc in
      let user_val := get user_profile genre in
      let movie_val := get movie_profile genre in
      (d + user_val * movie_val, un + user_val * user_val, mn + movie_val * movie_val))
      GENRES (0, 0, 0) in
  let user_norm := sqrt user_norm in
  let movie_norm := sqrt movie_norm in
  if qlt 0 user_norm && qlt 0 movie_norm
  then dot_product / (user_norm * movie_norm) else 0.

(** [fuzzy_dice]: accumulates [(intersection, sum_profiles)]. *)
Definition fuzzy_dice (user_profile movie_profile : dict) : Q :=
  let '(intersection, sum_profiles) :=
    fold_left (fun acc genre =>
      if is_unknown genre then acc else
      let user_val := get user_profile genre in
      let movie_val := get movie_profile genre in
      (fst acc + py_min user_val movie_val, snd acc + (user_val + movie_val)))
      GENRES (0, 0) in
  if qlt 0 sum_profiles then (2 * intersection) / sum_profiles else 0.

Definition default_weights : dict :=
  [("jaccard", 2#5); ("cosine", 2#5); ("dice", 1#5)]%string.

(** [hybrid_similarity(user, movie, weights)]; [None] for [weights=None];
    a missing key raises [KeyError]. *)
Definition hybrid_similarity (weights : option dict) (user_profile movie_profile : dict)
  : option Q :=
  let weights := match weights with None => default_weights | Some w => w end in
  let jaccard := fuzzy_jaccard user_profile movie_profile in
  let cosine := fuzzy_cosine user_profile movie_profile in
  let dice := fuzzy_dice user_profile movie_profile in
  match lookup "jaccard" weights, lookup "cosine" weights, lookup "dice" weights with
  | Some wj, Some wc, Some wd => Some (wj * jaccard + wc * cosine + wd * dice)
  | _, _, _ => None
  end%string.

(** The value of [hybrid_similarity] with the default weights, as it is
    called from [generate_recommendations]. *)
Definition default_hybrid (user_profile movie_profile : dict) : Q :=
  (2#5) * fuzzy_jaccard user_profile movie_profile
  + (2#5) * fuzzy_cosine user_profile movie_profile
  + (1#5) * fuzzy_dice user_profile movie_profile.

End Similarity.

(** ** FuzzyRecommender *)

(** A row of [fuzzy_movies_df]: its [movie_id], its [title] and the other
    columns (the fuzzy genre strengths) by label. *)
Record movie_row := MovieRow {
  movie_id : Z;
  title : string;
  columns : dict
}.

(** [user_profile]: the dict with keys ['user_id'] and ['profile']. *)
Record user_profile := UserProfile {
  user_id : Z;
  profile : dict
}.

(** A recommendation dict: ['movie_id'], ['title'], ['similarity_score'],
    ['genres'] (a list of [(genre, strength)] pairs). *)
Record candidate := Candidate {
  cand_movie_id : Z;
  cand_title : string;
  similarity_score : Q;
  genres : list (string * Q)
}.

(** [fuzzy_movies_df[~fuzzy_movies_df['movie_id'].isin(user_rated_movies)]] *)
Definition unrated_movies (fuzzy_movies_df : list movie_row) (user_rated_movies : list Z)
  : list movie_row :=
  filter (fun m => negb (existsb (Z.eqb (movie_id m)) user_rated_movies)) fuzzy_movies_df.

(** The available pool size: the number of catalog rows left after the
    exclusion filter. *)
Definition available_pool_size (fuzzy_movies_df : list movie_row) (user_rated_movies : list Z)
  : nat := length (unrated_movies fuzzy_movies_df user_rated_movies).

(** [movie_profile[genre] = movie[genre]] for every genre of [GENRES] other
    than ['unknown'] that is a column of the row, in [GENRES] order. *)
Definition movie_profile_of (movie : movie_row) : dict :=
  flat_map (fun genre =>
    if is_unknown genre then [] else
    match lookup genre (columns movie) with
    | Some v => [(genre, v)]
    | None => []
    end) GENRES.

(** [_get_top_movie_genres(movie_profile, n=3)] *)
Definition get_top_movie_genres (movie_profile : dict) : list (string * Q) :=
  filter (fun gs => qlt (1#10) (snd gs)) (firstn 3 (sort_desc snd movie_profile)).

Section Recommender.
Variable sqrt : Q -> Q.

(** The dict appended to [recommendations] for one unrated movie. *)
Definition make_candidate (up : user_profile) (movie : movie_row) : candidate :=
  let movie_profile := movie_profile_of movie in
  Candidate (movie_id movie) (title movie)
    (default_hybrid sqrt (profile up) movie_profile)
    (get_top_movie_genres movie_profile).

(** [recommendations] before the sort: one entry per unrated movie, in
    catalog iteration order. *)
Definition scored_candidates (up : user_profile) (fuzzy_movies_df : list movie_row)
  (user_rated_movies : list Z) : list candidate :=
  map (make_candidate up) (unrated_movies fuzzy_movies_df user_rated_movies).

(** [generate_recommendations(user_profile, fuzzy_movies_df, user_rated_movies, top_n)] *)
Definition generate_recommendations (up : user_profile) (fuzzy_movies_df : list movie_row)
  (user_rated_movies : list Z) (top_n : Z) : list candidate :=
  py_take top_n
    (sort_desc similarity_score (scored_candidates up fuzzy_movies_df user_rated_movies)).

(** *** The MMR loop of [generate_diverse_recommendations] *)

(** [set([g for g, s in c['genres']])]: the distinct labels. *)
Definition genre_set (c : candidate) : list string :=
  nodup string_dec (map fst (genres c)).

(** [overlap / max(len(selected_genres), len(candidate_genres))]; the
    division raises [ZeroDivisionError] when both sets are empty. *)
Definition genre_similarity (selected cand : candidate) : option Q :=
  let selected_genres := genre_set selected in
  let candidate_genres := genre_set cand in
  let overlap := length (filter (fun g => if in_dec string_dec g candidate_genres
                                          then true else false) selected_genres) in
  let m := Nat.max (length selected_genres) (length candidate_genres) in
  match m with
  | O => None
  | _ => Some (inject_Z (Z.of_nat overlap) / inject_Z (Z.of_nat m))
  end.

(** [max_similarity], starting from [0], over the selected items. *)
Definition max_similarity (diverse : list candidate) (cand : candidate) : option Q :=
  fold_left (fun acc selected =>
    match acc, genre_similarity selected cand with
    | Some ms, Some s => Some (py_max ms s)
    | _, _ => None
    end) diverse (Some 0).

(** [mmr_score = relevance - diversity_factor * max_similarity] *)
Definition mmr_score (diversity_factor : Q) (diverse : list candidate) (cand : candidate)
  : option Q :=
  match max_similarity diverse cand with
  | Some ms => Some (similarity_score cand - diversity_factor * ms)
  | None => None
  end.

(** The [for i, candidate in enumerate(remaining)] scan: [best] is
    [(best_score, best_index)], [i] the current index. *)
Fixpoint select_best (diversity_factor : Q) (diverse : list candidate) (i : Z)
  (best : Q * Z) (remaining : list candidate) : option (Q * Z) :=
  match remaining with
  | [] => Some best
  | cand :: rest =>
      match mmr_score diversity_factor diverse cand with
      | None => None
      | Some s =>
          select_best diversity_factor diverse (i + 1)
            (if qlt (fst best) s then (s, i) else best) rest
      end
  end.

(** The [while] loop, on its state [(diverse_recommendations,
    remaining_recommendations)].  Each iteration that does not stop removes
    one element of [remaining], so [fuel = length remaining] iterations
    suffice: once it is spent, [remaining] is empty and the loop exits. *)
Fixpoint mmr_loop (top_n : Z) (diversity_factor : Q) (fuel : nat)
  (diverse remaining : list candidate) : option (list candidate * list candidate) :=
  match fuel with
  | O => Some (diverse, remaining)
  | S fuel' =>
      if (Z.of_nat (length diverse) <? top_n)%Z && match remaining with [] => false | _ => true end then
        match select_best diversity_factor diverse 0 (-1, (-1)%Z) remaining with
        | None => None
        | Some (_, best_index) =>
            if (0 <=? best_index)%Z then
              match pop_at (Z.to_nat best_index) remaining with
              | Some (c, remaining') =>
                  mmr_loop top_n diversity_factor fuel' (diverse ++ [c]) remaining'
              | None => None
              end
            else Some (diverse, remaining)
        end
      else Some (diverse, remaining)
  end.

(** Everything after the call to [generate_recommendations]. *)
Definition mmr_rerank (top_n : Z) (diversity_factor : Q) (recommendations : list candidate)
  : option (list candidate) :=
  match recommendations with
  | [] => Some []
  | first :: remaining =>
      match mmr_loop top_n diversity_factor (length remaining) [first] remaining with
      | Some (diverse, _) => Some (py_take top_n diverse)
      | None => None
      end
  end.

(** [generate_diverse_recommendations(user_profile, fuzzy_movies_df,
    user_rated_movies, top_n, diversity_factor)] *)
Definition generate_diverse_recommendations (up : user_profile)
  (fuzzy_movies_df : list movie_row) (user_rated_movies : list Z) (top_n : Z)
  (diversity_factor : Q) : option (list candidate) :=
  mmr_rerank top_n diversity_factor
    (generate_recommendations up fuzzy_movies_df user_rated_movies 50).

End Recommender.

(** A rational model of [np.sqrt], used to run the code on concrete inputs:
    the square root truncated to ten decimals, exact on squares of
    rationals such as [1], [1/4] or [1/400]. *)
Definition np_sqrt (q : Q) : Q :=
  let n := Qnum q in
  let d := Zpos (Qden q) in
  if (n <=? 0)%Z then 0
  else Qred (Z.sqrt (n * d * 10 ^ 20) # (Qden q * 10 ^ 10)%positive).

(** ** GenreFuzzifier ([src/fuzzifier.py]) *)

(** [d[k] = v] on a Python dict: the value of an existing key is replaced
    in place, a new key is appended. *)
Fixpoint dict_set (k : string) (v : Q) (d : dict) : dict :=
  match d with
  | [] => [(k, v)]
  | (k', v') :: t => if String.eqb k k' then (k', v) :: t else (k', v') :: dict_set k v t
  end.

(** [k in d] *)
Definition dict_mem (k : string) (d : dict) : bool :=
  existsb (fun kv => String.eqb k (fst kv)) d.

(** [_build_genre_relationships()] *)
Definition genre_relationships : list (string * dict) :=
  [("Action", [("Adventure", 7#10); ("Thriller", 6#10); ("Sci-Fi", 5#10)]);
   ("Adventure", [("Action", 7#10); ("Fantasy", 6#10); ("Romance", 4#10)]);
   ("Comedy", [("Romance", 8#10); ("Drama", 5#10); ("Musical", 6#10)]);
   ("Drama", [("Romance", 7#10); ("Comedy", 5#10); ("Thriller", 4#10)]);
   ("Romance", [("Drama", 7#10); ("Comedy", 8#10); ("Musical", 5#10)]);
   ("Thriller", [("Action", 6#10); ("Mystery", 7#10); ("Crime", 8#10)]);
   ("Sci-Fi", [("Action", 5#10); ("Adventure", 6#10); ("Fantasy", 7#10)]);
   ("Fantasy", [("Adventure", 6#10); ("Sci-Fi", 7#10); ("Animation", 5#10)]);
   ("Horror", [("Thriller", 6#10); ("Mystery", 5#10); ("Fantasy", 3#10)]);
   ("Mystery", [("Thriller", 7#10); ("Crime", 8#10); ("Drama", 4#10)]);
   ("Crime", [("Thriller", 8#10); ("Drama", 6#10); ("Mystery", 8#10)]);
   ("Animation", [("Children's", 9#10); ("Fantasy", 6#10); ("Comedy", 7#10)]);
   ("Children's", [("Animation", 9#10); ("Fantasy", 5#10); ("Comedy", 6#10)]);
   ("Documentary", [("Drama", 3#10)]);
   ("Film-Noir", [("Crime", 7#10); ("Drama", 6#10); ("Mystery", 6#10)]);
   ("Musical", [("Comedy", 6#10); ("Romance", 5#10); ("Drama", 4#10)]);
   ("War", [("Drama", 8#10); ("Action", 5#10); ("Adventure", 4#10)]);
   ("Western", [("Adventure", 7#10); ("Action", 5#10); ("Drama", 6#10)])]%string.

Fixpoint relationships_of (g : string) (rels : list (string * dict)) : option dict :=
  match rels with
  | [] => None
  | (g', d) :: t => if String.eqb g g' then Some d else relationships_of g t
  end.

(** A movie row's binary genre flags, [genre_vector[genre]] ([None] is a
    [KeyError]); a flag is true when non-zero. *)
Fixpoint flag_lookup (k : string) (genre_vector : list (string * Z)) : option Z :=
  match genre_vector with
  | [] => None
  | (k', b) :: t => if String.eqb k k' then Some b else flag_lookup k t
  end.

(** [np.random.uniform(low, high)] where [r] is the underlying
    [np.random.random()] draw in [[0, 1)]. *)
Definition uniform (low high r : Q) : Q := low + (high - low) * r.

(** The draws are the sequence [rand 0], [rand 1], ...; the state is
    [(fuzzy_vector, number of draws made)]. *)
Section Fuzzifier.
Variable rand : nat -> Q.

(** The inner loop over [self.genre_relationships[genre].items()]. *)
Definition add_related (rels : dict) (st : dict * nat) : dict * nat :=
  fold_left (fun st rs =>
    let '(fuzzy_vector, n) := st in
    if dict_mem (fst rs) fuzzy_vector then st
    else (dict_set (fst rs) (uniform (2#10) (6#10) (rand n) * snd rs) fuzzy_vector, S n))
    rels st.

(** One iteration of [for genre in self.config.GENRES]. *)
Definition b2f_step (genre_vector : list (string * Z)) (acc : option (dict * nat))
  (genre : string) : option (dict * nat) :=
  match acc with
  | None => None
  | Some (fuzzy_vector, n) =>
      if is_unknown genre then Some (fuzzy_vector, n) else
      match flag_lookup genre genre_vector with
      | None => None
      | Some b =>
          if negb (Z.eqb b 0) then
            let fuzzy_vector := dict_set genre (uniform (7#10) 1 (rand n)) fuzzy_vector in
            match relationships_of genre genre_relationships with
            | Some rels => Some (add_related rels (fuzzy_vector, S n))
            | None => Some (fuzzy_vector, S n)
            end
          else Some (dict_set genre 0 fuzzy_vector, n)
      end
  end.

(** [binary_to_fuzzy(genre_vector)], ending with the clamp
    [min(1.0, max(0.0, v))] of every value. *)
Definition binary_to_fuzzy (genre_vector : list (string * Z)) : option dict :=
  match fold_left (b2f_step genre_vector) GENRES (Some ([], O)) with
  | None => None
  | Some (fuzzy_vector, _) =>
      Some (map (fun kv => (fst kv, py_min 1 (py_max 0 (snd kv)))) fuzzy_vector)
  end.
End Fuzzifier.

(** ** RecommendationEvaluator ([src/evaluator.py]) *)

(** [len(set(a) & set(b))] on movie ids. *)
Definition inter_count (a b : list Z) : nat :=
  length (filter (fun x => existsb (Z.eqb x) b) (nodup Z.eq_dec a)).

(** [calculate_precision_at_k(recommended_movies, test_movies, k)];
    [None] is the [ZeroDivisionError] of [relevant_count / k]. *)
Definition calculate_precision_at_k (recommended_movies test_movies : list Z) (k : Z)
  : option Q :=
  match recommended_movies with
  | [] => Some 0
  | _ =>
      let top_k_movies := py_take k recommended_movies in
      let relevant_count := inter_count top_k_movies test_movies in
      if Z.eqb k 0 then None
      else Some (inject_Z (Z.of_nat relevant_count) / inject_Z k)
  end.

(** [calculate_recall_at_k(recommended_movies, test_movies, k)] *)
Definition calculate_recall_at_k (recommended_movies test_movies : list Z) (k : Z) : Q :=
  match recommended_movies with
  | [] => 0
  | _ =>
      let top_k_movies := py_take k recommended_movies in
      let total_relevant := length test_movies in
      match total_relevant with
      | O => 0
      | _ => inject_Z (Z.of_nat (inter_count top_k_movies test_movies))
             / inject_Z (Z.of_nat total_relevant)
      end
  end.

(** [enumerate(l)] *)
Definition enumerate {A} (l : list A) : list (nat * A) := combine (seq 0 (length l)) l.

(** [np.log2] is kept abstract, as [np.sqrt] is above: it is only applied to
    the integers [i + 2]. *)
Section NDCG.
Variable log2 : nat -> Q.

(** [sum(rel / np.log2(i + 2) for i, rel in enumerate(relevance))], summed
    from [0.0] in the order of the loop. *)
Definition discounted_sum (relevance : list Q) : Q :=
  fold_left (fun acc ir => acc + snd ir / log2 (fst ir + 2)%nat) (enumerate relevance) 0.

(** [calculate_ndcg(recommended_movies, test_movies, k)] *)
Definition calculate_ndcg (recommended_movies test_movies : list Z) (k : Z) : Q :=
  match recommended_movies with
  | [] => 0
  | _ =>
      let relevance_scores :=
        map (fun movie_id => if existsb (Z.eqb movie_id) test_movies then 1 else 0)
            (py_take k recommended_movies) in
      let dcg := discounted_sum relevance_scores in
      let ideal_relevance := repeat 1 (Z.to_nat (Z.min (Z.of_nat (length test_movies)) k)) in
      let ideal_dcg := discounted_sum ideal_relevance in
      if qlt 0 ideal_dcg then dcg / ideal_dcg else 0
  end.

(** The discounted sum of [rels] whose first position is [o], summed from
    the right; the loop's sum is [dsum_from 0]. *)
Definition dsum_from (o : nat) (rels : list Q) : Q :=
  fold_right (fun ir s => snd ir / log2 (fst ir + 2)%nat + s) 0
    (combine (seq o (length rels)) rels).
End NDCG.

(** [1 if b else 0] *)
Definition b2q (b : bool) : Q := if b then 1 else 0.

(** The pairs [(recommendations[i], recommendations[j])], [i < j], in the
    order of the two nested loops. *)
Fixpoint ordered_pairs {A} (l : list A) : list (A * A) :=
  match l with
  | [] => []
  | x :: t => map (fun y => (x, y)) t ++ ordered_pairs t
  end.

(** The Jaccard dissimilarity of two recommendations' genre label sets;
    every recommendation built by this repository has a ['genres'] entry. *)
Definition genre_dissimilarity (a b : candidate) : Q :=
  let genres_i := genre_set a in
  let genres_j := genre_set b in
  let intersection := length (filter (fun g => if in_dec string_dec g genres_j
                                               then true else false) genres_i) in
  let union := length (nodup string_dec (genres_i ++ genres_j)) in
  match union with
  | O => 1
  | _ => 1 - inject_Z (Z.of_nat intersection) / inject_Z (Z.of_nat union)
  end.

(** [calculate_diversity(recommendations)] *)
Definition calculate_diversity (recommendations : list candidate) : Q :=
  if (length recommendations <? 2)%nat then 0 else
  let '(total_dissimilarity, total_pairs) :=
    fold_left (fun acc ij =>
      (fst acc + genre_dissimilarity (fst ij) (snd ij), (snd acc + 1)%nat))
      (ordered_pairs recommendations) (0, O) in
  match total_pairs with
  | O => 0
  | _ => total_dissimilarity / inject_Z (Z.of_nat total_pairs)
  end.

(** ** Concrete inputs *)

(** Scenario 1 of the spec: a user and a two-movie catalog. *)
Definition scenario_user : user_profile :=
  UserProfile 1 [("Comedy", 4#5); ("Romance", 3#5)]%string.

Definition scenario_catalog : list movie_row :=
  [MovieRow 1 "M1" [("Comedy", 9#10); ("Romance", 1#2)];
   MovieRow 2 "M2" [("Horror", 9#10)]]%string.

(** Weights with the three recognised keys and one more. *)
Definition weights_extra_key : dict :=
  [("jaccard", 1); ("cosine", 0); ("dice", 0); ("novelty", 1)]%string.

(** A profile that is non-zero only on the sentinel genre. *)
Definition sentinel_profile : dict := [("unknown", 1)]%string.

Definition action_user : user_profile := UserProfile 1 [("Action", 1)]%string.
Definition comedy_user : user_profile := UserProfile 2 [("Comedy", 1)]%string.

(** [n] movies, each of full strength in [Action] only. *)
Definition action_catalog (n : nat) : list movie_row :=
  map (fun k => MovieRow (Z.of_nat k) "movie" [("Action", 1)]%string) (seq 1 n).

(** Two movies whose only genre strength is below the [0.1] threshold of
    [_get_top_movie_genres], so their ['genres'] lists are empty. *)
Definition faint_catalog : list movie_row :=
  [MovieRow 1 "F1" [("Action", 1#20)]; MovieRow 2 "F2" [("Action", 1#20)]]%string.

(** A pool entry of score [0] whose only genre is [Action]. *)
Definition zero_candidate (k : Z) : candidate :=
  Candidate k "movie" 0 [("Action", 1)]%string.



(** The integer part of the base-2 logarithm, a positive non-decreasing
    stand-in for [np.log2] on [2, 3, ...]. *)
Definition floor_log2 (n : nat) : Q := inject_Z (Z.log2 (Z.of_nat n)).

(** The keys [hybrid_similarity] reads. *)
Definition recognized_weight (kv : string * Q) : bool :=
  (String.eqb (fst kv) "jaccard" || String.eqb (fst kv) "cosine"
   || String.eqb (fst kv) "dice")%string.

(** ** Properties used in the statements *)

(** [a] may precede [b] in a list sorted by descending [key]. *)
Definition desc {A} (key : A -> Q) (a b : A) : Prop := key b <= key a.

(** Every remaining candidate has an MMR score of at most [-1], the initial
    [best_score] of the scan. *)
Definition stops_with_all_below (df : Q) (diverse remaining : list candidate) : Prop :=
  forall c, In c remaining -> exists s, mmr_score df diverse c = Some s /\ s <= -1.

(** ** Sums in the words of the spec *)

(** The genres the similarity measures range over: [GENRES] without the
    sentinel ['unknown']. *)
Definition scored_genres : list string := filter (fun g => negb (is_unknown g)) GENRES.

Definition qsum (l : list Q) : Q := fold_left Qplus l 0.

(** Equality of two optional results up to [Qeq]. *)
Definition opt_Qeq (x y : option Q) : Prop :=
  match x, y with
  | Some a, Some b => a == b
  | None, None => True
  | _, _ => False
  end.

(** ** Lemmas on the Python helpers *)

Lemma qlt_spec a b : qlt a b = true <-> a < b.
Proof.
  unfold qlt. split; intro H.
  - apply Qnot_le_lt. intro Hle. apply Qle_bool_iff in Hle. rewrite Hle in H. discriminate.
  - destruct (Qle_bool b a) eqn:E; [|reflexivity].
    apply Qle_bool_iff in E. exfalso. apply (Qlt_not_le _ _ H E).
Qed.

Lemma qlt_false a b : qlt a b = false <-> b <= a.
Proof.
  unfold qlt. rewrite <- Qle_bool_iff. destruct (Qle_bool b a); simpl; split; congruence.
Qed.

Lemma qlt_compat a a' b b' : a == a' -> b == b' -> qlt a b = qlt a' b'.
Proof. intros Ha Hb. unfold qlt. rewrite Ha, Hb. reflexivity. Qed.

Lemma py_min_comm a b : py_min a b == py_min b a.
Proof.
  unfold py_min. destruct (qlt b a) eqn:E1, (qlt a b) eqn:E2;
    try apply qlt_spec in E1; try apply qlt_spec in E2;
    try apply qlt_false in E1; try apply qlt_false in E2.
  - exfalso. apply (Qlt_not_le _ _ E1). apply Qlt_le_weak, E2.
  - reflexivity.
  - reflexivity.
  - apply Qle_antisym; assumption.
Qed.

Lemma py_max_comm a b : py_max a b == py_max b a.
Proof.
  unfold py_max. destruct (qlt a b) eqn:E1, (qlt b a) eqn:E2;
    try apply qlt_spec in E1; try apply qlt_spec in E2;
    try apply qlt_false in E1; try apply qlt_false in E2.
  - exfalso. apply (Qlt_not_le _ _ E1). apply Qlt_le_weak, E2.
  - reflexivity.
  - reflexivity.
  - apply Qle_antisym; assumption.
Qed.

Lemma py_min_diag a : py_min a a = a.
Proof. unfold py_min. destruct (qlt a a); reflexivity. Qed.

Lemma py_max_diag a : py_max a a = a.
Proof. unfold py_max. destruct (qlt a a); reflexivity. Qed.

Lemma py_max_ge_l a b : a <= py_max a b.
Proof.
  unfold py_max. destruct (qlt a b) eqn:E; [|apply Qle_refl].
  apply qlt_spec in E. apply Qlt_le_weak, E.
Qed.

Lemma py_max_ge_r a b : b <= py_max a b.
Proof.
  unfold py_max. destruct (qlt a b) eqn:E; [apply Qle_refl|].
  apply qlt_false in E. exact E.
Qed.

Lemma py_max_le a b c : a <= c -> b <= c -> py_max a b <= c.
Proof. unfold py_max. destruct (qlt a b); auto. Qed.

(** ** Sums over the genre loop *)

Lemma fold_plus_compat (l : list string) (f g : string -> Q) (a b : Q) :
  (forall x, f x == g x) -> a == b ->
  fold_left Qplus (map f l) a == fold_left Qplus (map g l) b.
Proof.
  revert a b. induction l as [|x l IH]; intros a b Hfg Hab; simpl; [exact Hab|].
  apply IH; [exact Hfg|]. rewrite Hab, (Hfg x). reflexivity.
Qed.

Lemma fold_plus_zero (l : list string) (f : string -> Q) (a : Q) :
  (forall x, In x l -> f x == 0) -> fold_left Qplus (map f l) a == a.
Proof.
  revert a. induction l as [|x l IH]; intros a Hf; simpl; [reflexivity|].
  rewrite IH by (intros; apply Hf; right; assumption).
  rewrite (Hf x (or_introl eq_refl)). ring.
Qed.

Lemma fold_plus_ge (l : list Q) (a : Q) :
  (forall x, In x l -> 0 <= x) -> a <= fold_left Qplus l a.
Proof.
  revert a. induction l as [|x l IH]; intros a Hl; simpl; [apply Qle_refl|].
  apply Qle_trans with (a + x).
  - rewrite <- (Qplus_0_r a) at 1. apply Qplus_le_r. apply Hl. left; reflexivity.
  - apply IH. intros y Hy. apply Hl. right; exact Hy.
Qed.

(** A genre loop accumulating two sums is the pair of the two sums over
    [GENRES] without ['unknown']. *)
Lemma fold_pair_split (l : list string) (f g : string -> Q) (a b : Q) :
  fold_left (fun acc genre =>
    if is_unknown genre then acc else (fst acc + f genre, snd acc + g genre)) l (a, b)
  = (fold_left Qplus (map f (filter (fun x => negb (is_unknown x)) l)) a,
     fold_left Qplus (map g (filter (fun x => negb (is_unknown x)) l)) b).
Proof.
  revert a b. induction l as [|x l IH]; intros a b; simpl; [reflexivity|].
  destruct (is_unknown x); simpl; apply IH.
Qed.

Lemma fold_triple_split (l : list string) (f g h : string -> Q) (a b c : Q) :
  fold_left (fun (acc : Q * Q * Q) genre =>
    if is_unknown genre then acc else
    let '(d, un, mn) := acc in (d + f genre, un + g genre, mn + h genre)) l (a, b, c)
  = (fold_left Qplus (map f (filter (fun x => negb (is_unknown x)) l)) a,
     fold_left Qplus (map g (filter (fun x => negb (is_unknown x)) l)) b,
     fold_left Qplus (map h (filter (fun x => negb (is_unknown x)) l)) c).
Proof.
  revert a b c. induction l as [|x l IH]; intros a b c; simpl; [reflexivity|].
  destruct (is_unknown x); simpl; apply IH.
Qed.

Lemma fuzzy_jaccard_sums (A B : dict) :
  fuzzy_jaccard A B =
  let num := qsum (map (fun g => py_min (get A g) (get B g)) scored_genres) in
  let den := qsum (map (fun g => py_max (get A g) (get B g)) scored_genres) in
  if qlt 0 den then num / den else 0.
Proof.
  unfold fuzzy_jaccard.
  rewrite (fold_pair_split GENRES (fun g => py_min (get A g) (get B g))
                                  (fun g => py_max (get A g) (get B g))).
  reflexivity.
Qed.

Lemma fuzzy_dice_sums (A B : dict) :
  fuzzy_dice A B =
  let num := qsum (map (fun g => py_min (get A g) (get B g)) scored_genres) in
  let den := qsum (map (fun g => get A g + get B g) scored_genres) in
  if qlt 0 den then (2 * num) / den else 0.
Proof.
  unfold fuzzy_dice.
  rewrite (fold_pair_split GENRES (fun g => py_min (get A g) (get B g))
                                  (fun g => get A g + get B g)).
  reflexivity.
Qed.

Lemma fuzzy_cosine_sums (sqrt : Q -> Q) (A B : dict) :
  fuzzy_cosine sqrt A B =
  let dot := qsum (map (fun g => get A g * get B g) scored_genres) in
  let un := sqrt (qsum (map (fun g => get A g * get A g) scored_genres)) in
  let mn := sqrt (qsum (map (fun g => get B g * get B g) scored_genres)) in
  if qlt 0 un && qlt 0 mn then dot / (un * mn) else 0.
Proof.
  unfold fuzzy_cosine.
  rewrite (fold_triple_split GENRES (fun g => get A g * get B g)
             (fun g => get A g * get A g) (fun g => get B g * get B g)).
  reflexivity.
Qed.

(** ** Claims on FuzzySimilarity *)

(** C6: with profiles in the domain of the code (non-negative strengths),
    [fuzzy_jaccard A B] is [0] when the sum of the maxima over the genres
    other than ['unknown'] is [0], and otherwise the sum of the minima
    divided by the sum of the maxima; a genre missing from a profile counts
    as [0] ([get]). *)
Theorem fuzzy_jaccard_formula (A B : dict)
  (HA : forall g, 0 <= get A g) (HB : forall g, 0 <= get B g) :
  let num := qsum (map (fun g => py_min (get A g) (get B g)) scored_genres) in
  let den := qsum (map (fun g => py_max (get A g) (get B g)) scored_genres) in
  (den == 0 -> fuzzy_jaccard A B = 0) /\ (~ den == 0 -> fuzzy_jaccard A B = num / den).
Proof.
  intros num den. rewrite fuzzy_jaccard_sums. cbv zeta. fold num den.
  assert (Hden : 0 <= den).
  { unfold den, qsum. apply fold_plus_ge. intros x Hx. apply in_map_iff in Hx.
    destruct Hx as [g [<- _]]. apply Qle_trans with (get A g); [apply HA|apply py_max_ge_l]. }
  split; intro H.
  - destruct (qlt 0 den) eqn:E; [|reflexivity].
    apply qlt_spec in E. rewrite H in E. discriminate E.
  - destruct (qlt 0 den) eqn:E; [reflexivity|].
    apply qlt_false in E. exfalso. apply H. apply Qle_antisym; assumption.
Qed.

(** C8: [fuzzy_jaccard], [fuzzy_cosine], [fuzzy_dice] and
    [hybrid_similarity] (for every weights argument, also [None] and
    mappings that raise [KeyError] on both sides) are symmetric in their two
    profile arguments, for every square-root function. *)
Theorem similarity_symmetric (sqrt : Q -> Q) (weights : option dict) (A B : dict) :
  fuzzy_jaccard A B == fuzzy_jaccard B A /\
  fuzzy_cosine sqrt A B == fuzzy_cosine sqrt B A /\
  fuzzy_dice A B == fuzzy_dice B A /\
  opt_Qeq (hybrid_similarity sqrt weights A B) (hybrid_similarity sqrt weights B A).
Proof.
  assert (Hmin : qsum (map (fun g => py_min (get A g) (get B g)) scored_genres)
              == qsum (map (fun g => py_min (get B g) (get A g)) scored_genres))
    by (apply fold_plus_compat; [intro; apply py_min_comm | reflexivity]).
  assert (Hmax : qsum (map (fun g => py_max (get A g) (get B g)) scored_genres)
              == qsum (map (fun g => py_max (get B g) (get A g)) scored_genres))
    by (apply fold_plus_compat; [intro; apply py_max_comm | reflexivity]).
  assert (Hsum : qsum (map (fun g => get A g + get B g) scored_genres)
              == qsum (map (fun g => get B g + get A g) scored_genres))
    by (apply fold_plus_compat; [intro; apply Qplus_comm | reflexivity]).
  assert (Hdot : qsum (map (fun g => get A g * get B g) scored_genres)
              == qsum (map (fun g => get B g * get A g) scored_genres))
    by (apply fold_plus_compat; [intro; apply Qmult_comm | reflexivity]).
  assert (HJ : fuzzy_jaccard A B == fuzzy_jaccard B A).
  { rewrite !fuzzy_jaccard_sums. cbv zeta.
    rewrite (qlt_compat _ _ _ _ (Qeq_refl 0) Hmax).
    destruct (qlt 0 _); [rewrite Hmin, Hmax|]; reflexivity. }
  assert (HC : fuzzy_cosine sqrt A B == fuzzy_cosine sqrt B A).
  { rewrite !fuzzy_cosine_sums. cbv zeta.
    rewrite andb_comm.
    destruct (_ && _); [|reflexivity].
    rewrite Hdot, (Qmult_comm (sqrt _)). reflexivity. }
  assert (HD : fuzzy_dice A B == fuzzy_dice B A).
  { rewrite !fuzzy_dice_sums. cbv zeta.
    rewrite (qlt_compat _ _ _ _ (Qeq_refl 0) Hsum).
    destruct (qlt 0 _); [rewrite Hmin, Hsum|]; reflexivity. }
  split; [exact HJ|]. split; [exact HC|]. split; [exact HD|].
  unfold hybrid_similarity. cbv zeta.
  set (w := match weights with None => default_weights | Some w => w end).
  destruct (lookup "jaccard" w), (lookup "cosine" w), (lookup "dice" w); simpl; try exact I.
  rewrite HJ, HC, HD. reflexivity.
Qed.

(** C9 (amended): for a profile with non-negative strengths that is
    non-zero on a genre of [GENRES] other than the sentinel ['unknown'],
    [fuzzy_jaccard A A] is [1]; for a profile that is zero on every genre
    other than ['unknown'] (for instance non-zero only on ['unknown']),
    [fuzzy_jaccard A A] is [0]. *)
Theorem fuzzy_jaccard_self (A : dict) :
  ((forall g, 0 <= get A g) ->
   (exists g, In g scored_genres /\ ~ get A g == 0) ->
   fuzzy_jaccard A A == 1) /\
  ((forall g, g <> "unknown"%string -> get A g == 0) ->
   fuzzy_jaccard A A == 0).
Proof.
  rewrite fuzzy_jaccard_sums. cbv zeta.
  set (s := qsum (map (fun g => py_max (get A g) (get A g)) scored_genres)).
  assert (Hs : qsum (map (fun g => py_min (get A g) (get A g)) scored_genres) = s).
  { unfold s. apply f_equal. apply map_ext. intro g. rewrite py_min_diag, py_max_diag. reflexivity. }
  rewrite Hs. split.
  - intros HA Hnz.
    assert (Hpos : 0 < s).
    { destruct Hnz as [g0 [Hin Hne]].
      assert (Hg0 : 0 < get A g0).
      { destruct (Qlt_le_dec 0 (get A g0)) as [H|H]; [exact H|].
        exfalso. apply Hne. apply Qle_antisym; [exact H | apply HA]. }
      unfold s, qsum.
      assert (Hgen : forall (l : list string) a, 0 <= a -> In g0 l ->
        0 < fold_left Qplus (map (fun g => py_max (get A g) (get A g)) l) a).
      { induction l as [|x l IH]; intros a Ha Hl; [destruct Hl|].
        simpl. destruct Hl as [->|Hl].
        - apply Qlt_le_trans with (a + py_max (get A g0) (get A g0)).
          + rewrite py_max_diag. lra.
          + apply fold_plus_ge. intros x Hx. apply in_map_iff in Hx.
            destruct Hx as [g [<- _]]. rewrite py_max_diag. apply HA.
        - apply IH; [|exact Hl]. rewrite py_max_diag. specialize (HA x). lra. }
      apply Hgen; [apply Qle_refl | exact Hin]. }
    destruct (qlt 0 s) eqn:E.
    + apply Qmult_inv_r. intro H. rewrite H in Hpos. discriminate Hpos.
    + apply qlt_false in E. exfalso. apply (Qlt_not_le _ _ Hpos E).
  - intro Hz.
    assert (Hs0 : s == 0).
    { unfold s, qsum. apply fold_plus_zero. intros g Hg.
      rewrite py_max_diag. apply Hz. intros ->.
      unfold scored_genres in Hg. apply filter_In in Hg.
      destruct Hg as [_ Hg]. discriminate Hg. }
    rewrite (qlt_compat 0 0 s 0 (Qeq_refl 0) Hs0).
    destruct (qlt 0 0) eqn:E; [|reflexivity].
    apply qlt_spec in E. discriminate E.
Qed.

(** ** The stable descending sort *)

Section SortFacts.
Context {A : Type} (key : A -> Q).

Lemma insert_desc_perm x l : Permutation (x :: l) (insert_desc key x l).
Proof.
  induction l as [|y t IH]; simpl; [reflexivity|].
  destruct (Qle_bool (key y) (key x)); [reflexivity|].
  rewrite perm_swap. constructor. exact IH.
Qed.

Lemma sort_desc_perm l : Permutation l (sort_desc key l).
Proof.
  induction l as [|x t IH]; simpl; [reflexivity|].
  rewrite <- insert_desc_perm. constructor. exact IH.
Qed.

Lemma insert_desc_sorted x l : Sorted (desc key) l -> Sorted (desc key) (insert_desc key x l).
Proof.
  induction l as [|y t IH]; intro Hs; simpl; [repeat constructor|].
  destruct (Qle_bool (key y) (key x)) eqn:E.
  - constructor; [exact Hs|]. constructor. apply Qle_bool_iff, E.
  - assert (Hxy : key x <= key y).
    { apply Qlt_le_weak, Qnot_le_lt. intro H. apply Qle_bool_iff in H. congruence. }
    apply Sorted_inv in Hs. destruct Hs as [Ht Hh].
    constructor; [apply IH, Ht|].
    destruct t as [|z t']; simpl.
    + constructor. exact Hxy.
    + destruct (Qle_bool (key z) (key x)); constructor; [exact Hxy|].
      inversion Hh; assumption.
Qed.

Lemma sort_desc_sorted l : Sorted (desc key) (sort_desc key l).
Proof.
  induction l as [|x t IH]; simpl; [constructor|]. apply insert_desc_sorted, IH.
Qed.

Lemma insert_desc_filter q x l :
  filter (fun c => Qeq_bool (key c) q) (insert_desc key x l)
  = filter (fun c => Qeq_bool (key c) q) (x :: l).
Proof.
  induction l as [|y t IH]; simpl; [reflexivity|].
  destruct (Qle_bool (key y) (key x)) eqn:E; [reflexivity|].
  simpl. rewrite IH. simpl.
  destruct (Qeq_bool (key x) q) eqn:Ex, (Qeq_bool (key y) q) eqn:Ey; try reflexivity.
  apply Qeq_bool_iff in Ex, Ey. exfalso.
  assert (H : key y <= key x) by (rewrite Ex, Ey; apply Qle_refl).
  apply Qle_bool_iff in H. congruence.
Qed.

Lemma sort_desc_stable q l :
  filter (fun c => Qeq_bool (key c) q) (sort_desc key l)
  = filter (fun c => Qeq_bool (key c) q) l.
Proof.
  induction l as [|x t IH]; simpl; [reflexivity|].
  rewrite insert_desc_filter. simpl. rewrite IH. reflexivity.
Qed.

Lemma sorted_firstn n l : Sorted (desc key) l -> Sorted (desc key) (firstn n l).
Proof.
  revert l. induction n as [|n IH]; intros l Hs; simpl; [constructor|].
  destruct l as [|x t]; [constructor|].
  apply Sorted_inv in Hs. destruct Hs as [Ht Hh]. constructor; [apply IH, Ht|].
  destruct n, t; simpl; try constructor. inversion Hh; assumption.
Qed.

End SortFacts.

Lemma py_take_nonneg {A} (n : Z) (l : list A) :
  (0 <= n)%Z -> py_take n l = firstn (Z.to_nat n) l.
Proof. intro H. unfold py_take. destruct (Z.leb_spec 0 n); [reflexivity | lia]. Qed.

Lemma lookup_recognized (k : string) (w : dict) :
  recognized_weight (k, 0) = true -> lookup k (filter recognized_weight w) = lookup k w.
Proof.
  intro Hk. induction w as [|[k' v] t IH]; simpl; [reflexivity|].
  destruct (recognized_weight (k', v)) eqn:E; simpl.
  - rewrite IH. reflexivity.
  - destruct (String.eqb_spec k k') as [->|Hne]; [|exact IH].
    unfold recognized_weight in Hk, E. simpl in Hk, E. congruence.
Qed.

Lemma generate_recommendations_length sqrt up cat rated n :
  (0 <= n)%Z ->
  length (generate_recommendations sqrt up cat rated n)
  = Nat.min (Z.to_nat n) (available_pool_size cat rated).
Proof.
  intro Hn. unfold generate_recommendations. rewrite py_take_nonneg by exact Hn.
  rewrite length_firstn. f_equal.
  rewrite <- (Permutation_length (sort_desc_perm similarity_score _)).
  unfold scored_candidates. rewrite length_map. reflexivity.
Qed.

(** ** Claims on generate_recommendations *)

(** C7: [generate_recommendations] returns the first [top_n] entries (Python
    slice) of one list [full]: [full] is a permutation of the scored unrated
    movies in catalog order, sorted by descending [similarity_score], and the
    entries of any one score appear in [full] in catalog order.  These three
    properties determine [full], so equal inputs give equal outputs; the
    output itself is sorted by descending score. *)
Theorem generate_recommendations_sorted_stable (sqrt : Q -> Q) (up : user_profile)
  (fuzzy_movies_df : list movie_row) (user_rated_movies : list Z) (top_n : Z) :
  let scored := scored_candidates sqrt up fuzzy_movies_df user_rated_movies in
  let out := generate_recommendations sqrt up fuzzy_movies_df user_rated_movies top_n in
  Sorted (desc similarity_score) out /\
  exists full,
    Permutation scored full /\ out = py_take top_n full /\
    Sorted (desc similarity_score) full /\
    forall q, filter (fun c => Qeq_bool (similarity_score c) q) full
              = filter (fun c => Qeq_bool (similarity_score c) q) scored.
Proof.
  intros scored out. split.
  - unfold out, generate_recommendations, py_take.
    destruct (0 <=? top_n)%Z; apply sorted_firstn, sort_desc_sorted.
  - exists (sort_desc similarity_score scored). split; [apply sort_desc_perm|].
    split; [reflexivity|]. split; [apply sort_desc_sorted|].
    intro q. apply sort_desc_stable.
Qed.

(** C5 (amended): the entry points validate nothing.  With [top_n < 0],
    [generate_recommendations] returns the ranked list without its last
    [-top_n] entries (Python slicing); [hybrid_similarity] reads only the keys
    ['jaccard'], ['cosine'] and ['dice'], so any other key is ignored. *)
Theorem no_input_validation (sqrt : Q -> Q) (up : user_profile)
  (fuzzy_movies_df : list movie_row) (user_rated_movies : list Z) (top_n : Z)
  (Hneg : (top_n < 0)%Z) (weights : dict) (A B : dict) :
  let P := available_pool_size fuzzy_movies_df user_rated_movies in
  generate_recommendations sqrt up fuzzy_movies_df user_rated_movies top_n
  = firstn (P - Z.to_nat (- top_n))
      (generate_recommendations sqrt up fuzzy_movies_df user_rated_movies (Z.of_nat P)) /\
  hybrid_similarity sqrt (Some weights) A B
  = hybrid_similarity sqrt (Some (filter recognized_weight weights)) A B.
Proof.
  intro P. split.
  - unfold generate_recommendations.
    set (l := sort_desc similarity_score _).
    assert (Hl : length l = P).
    { unfold l. rewrite <- (Permutation_length (sort_desc_perm similarity_score _)).
      unfold scored_candidates. rewrite length_map. reflexivity. }
    rewrite (py_take_nonneg (Z.of_nat P)) by lia. rewrite Nat2Z.id.
    rewrite <- Hl at 2. rewrite firstn_all.
    unfold py_take. destruct (Z.leb_spec 0 top_n); [lia|].
    f_equal. rewrite Hl. lia.
  - unfold hybrid_similarity. cbv zeta.
    rewrite !lookup_recognized by reflexivity. reflexivity.
Qed.

(** ** The MMR loop *)

Lemma genre_similarity_bounds s c p :
  genre_similarity s c = Some p -> 0 <= p /\ p <= 1.
Proof.
  unfold genre_similarity.
  set (sg := genre_set s). set (cg := genre_set c).
  set (o := length (filter _ sg)).
  assert (Ho : (o <= length sg)%nat) by apply filter_length_le.
  destruct (Nat.max (length sg) (length cg)) as [|k] eqn:Em; [discriminate|].
  intro H. injection H as <-.
  assert (Hk : 0 < inject_Z (Z.of_nat (S k))) by (change 0 with (inject_Z 0); rewrite <- Zlt_Qlt; lia).
  assert (Hok : inject_Z (Z.of_nat o) <= inject_Z (Z.of_nat (S k))) by (rewrite <- Zle_Qle; lia).
  assert (Ho0 : 0 <= inject_Z (Z.of_nat o)) by (change 0 with (inject_Z 0); rewrite <- Zle_Qle; lia).
  split.
  - apply Qle_shift_div_l; [exact Hk|]. rewrite Qmult_0_l. exact Ho0.
  - apply Qle_shift_div_r; [exact Hk|]. rewrite Qmult_1_l. exact Hok.
Qed.

Lemma max_similarity_none diverse cand :
  fold_left (fun acc selected =>
    match acc, genre_similarity selected cand with
    | Some ms, Some s => Some (py_max ms s)
    | _, _ => None
    end) diverse None = None.
Proof. induction diverse as [|x t IH]; simpl; [reflexivity | exact IH]. Qed.

Lemma max_similarity_bounds diverse cand ms :
  max_similarity diverse cand = Some ms -> 0 <= ms /\ ms <= 1.
Proof.
  unfold max_similarity.
  assert (Hgen : forall a, 0 <= a /\ a <= 1 ->
    fold_left (fun acc selected =>
      match acc, genre_similarity selected cand with
      | Some ms, Some s => Some (py_max ms s)
      | _, _ => None
      end) diverse (Some a) = Some ms -> 0 <= ms /\ ms <= 1).
  { induction diverse as [|x t IH]; intros a Ha H; simpl in H.
    - injection H as <-. exact Ha.
    - destruct (genre_similarity x cand) as [p|] eqn:E.
      + apply (IH (py_max a p)); [|exact H].
        apply genre_similarity_bounds in E. split.
        * apply Qle_trans with a; [apply Ha | apply py_max_ge_l].
        * apply py_max_le; [apply Ha | apply E].
      + rewrite max_similarity_none in H. discriminate. }
  apply Hgen. split; [apply Qle_refl | discriminate].
Qed.

Lemma mmr_score_lower df diverse cand s :
  0 <= df -> mmr_score df diverse cand = Some s -> similarity_score cand - df <= s.
Proof.
  intros Hdf. unfold mmr_score.
  destruct (max_similarity diverse cand) as [ms|] eqn:E; [|discriminate].
  intro H. injection H as <-. apply max_similarity_bounds in E.
  assert (df * ms <= df * 1) by (apply Qmult_le_compat_nonneg; split; try apply Qle_refl; tauto).
  rewrite Qmult_1_r in H. lra.
Qed.

(** The scan either keeps the initial [(best_score, best_index)], every
    candidate then scoring at most [best_score], or picks an index of the
    scanned list. *)
Lemma select_best_spec df diverse remaining i b bi0 bs bi :
  select_best df diverse i (b, bi0) remaining = Some (bs, bi) ->
  (bi = bi0 /\ forall c, In c remaining ->
     exists s, mmr_score df diverse c = Some s /\ s <= b) \/
  (i <= bi < i + Z.of_nat (length remaining))%Z.
Proof.
  revert i b bi0. induction remaining as [|c t IH]; intros i b bi0 H; simpl in H.
  - injection H as _ ->. left. split; [reflexivity | intros c []].
  - destruct (mmr_score df diverse c) as [s|] eqn:Es; [|discriminate].
    simpl fst in H. destruct (qlt b s) eqn:Elt.
    + apply IH in H. right. simpl length.
      destruct H as [[-> _]|H]; lia.
    + apply IH in H. destruct H as [[-> Hall]|H].
      * left. split; [reflexivity|]. intros c' [<-|Hc'].
        -- exists s. split; [exact Es|]. apply qlt_false in Elt. exact Elt.
        -- apply Hall, Hc'.
      * right. simpl length. lia.
Qed.

Lemma pop_at_spec {A} (i : nat) (l : list A) :
  (i < length l)%nat ->
  exists c l', pop_at i l = Some (c, l') /\ Permutation l (c :: l').
Proof.
  revert i. induction l as [|x t IH]; intros i Hi; simpl in Hi; [lia|].
  destruct i as [|j]; simpl.
  - exists x, t. split; reflexivity.
  - destruct (IH j) as [c [l' [E P]]]; [lia|]. rewrite E.
    exists c, (x :: l'). split; [reflexivity|].
    rewrite P. apply perm_swap.
Qed.

(** The loop invariant: the two lists are a rearrangement of the initial
    ones, [diverse] grows only while shorter than [top_n], and at exit
    [top_n] is reached, the pool is empty, or no candidate beats [-1]. *)
Lemma mmr_loop_inv top_n df fuel diverse remaining diverse' remaining' :
  (length remaining <= fuel)%nat ->
  mmr_loop top_n df fuel diverse remaining = Some (diverse', remaining') ->
  Permutation (diverse ++ remaining) (diverse' ++ remaining') /\
  (Z.of_nat (length diverse') <= Z.max (Z.of_nat (length diverse)) top_n)%Z /\
  ((top_n <= Z.of_nat (length diverse'))%Z \/ remaining' = [] \/
   stops_with_all_below df diverse' remaining').
Proof.
  revert diverse remaining.
  induction fuel as [|fuel IH]; intros diverse remaining Hfuel H; simpl in H.
  - destruct remaining; [|simpl in Hfuel; lia].
    injection H as <- <-. split; [reflexivity|]. split; [lia|]. right; left; reflexivity.
  - destruct ((Z.of_nat (length diverse) <? top_n)%Z && _) eqn:Ec.
    + apply andb_true_iff in Ec. destruct Ec as [Ec Ene]. apply Z.ltb_lt in Ec.
      destruct (select_best df diverse 0 (-1, (-1)%Z) remaining) as [[bs bi]|] eqn:Eb;
        [|discriminate].
      apply select_best_spec in Eb.
      destruct (Z.leb_spec 0 bi) as [Hbi|Hbi].
      * destruct Eb as [[-> _]|Eb]; [lia|].
        destruct (pop_at_spec (Z.to_nat bi) remaining) as [c [l' [Ep Pp]]]; [lia|].
        rewrite Ep in H.
        assert (Hl' : length l' = (length remaining - 1)%nat)
          by (apply Permutation_length in Pp; simpl in Pp; lia).
        apply IH in H; [|lia].
        destruct H as [HP [HL HS]]. split; [|split; [|exact HS]].
        -- rewrite <- HP, <- app_assoc. simpl. apply Permutation_app_head, Pp.
        -- rewrite length_app in HL. simpl in HL. lia.
      * injection H as <- <-. split; [reflexivity|]. split; [lia|].
        destruct Eb as [[_ Hall]|Eb]; [|lia].
        right; right. exact Hall.
    + injection H as <- <-. split; [reflexivity|]. split; [lia|].
      apply andb_false_iff in Ec. destruct Ec as [Ec|Ec].
      * left. apply Z.ltb_ge in Ec. exact Ec.
      * right; left. destruct remaining; [reflexivity | discriminate].
Qed.

Lemma in_py_take {A} (n : Z) (l : list A) x : In x (py_take n l) -> In x l.
Proof.
  intro H. unfold py_take in H.
  destruct (0 <=? n)%Z;
    match type of H with In _ (firstn ?k _) =>
      rewrite <- (firstn_skipn k l); apply in_or_app; left; exact H end.
Qed.

Lemma in_generate_recommendations sqrt up cat rated n c :
  In c (generate_recommendations sqrt up cat rated n) ->
  exists m, In m cat /\ c = make_candidate sqrt up m.
Proof.
  unfold generate_recommendations. intro H. apply in_py_take in H.
  apply (Permutation_in _ (Permutation_sym (sort_desc_perm _ _))) in H.
  unfold scored_candidates in H. apply in_map_iff in H. destruct H as [m [<- Hm]].
  unfold unrated_movies in Hm. apply filter_In in Hm. exists m. split; [apply Hm | reflexivity].
Qed.

Lemma py_take_length {A} (n : Z) (l : list A) :
  (0 <= n)%Z -> length (py_take n l) = Nat.min (Z.to_nat n) (length l).
Proof. intro H. rewrite py_take_nonneg by exact H. apply length_firstn. Qed.

(** ** Claims on generate_diverse_recommendations *)

(** C1 (amended): for [top_n = N >= 0], the pool is capped at 50 entries,
    so a call that returns a list returns at most [min(N, 50, P)] items,
    [P] the available pool size; when [diversity_factor >= 0] and every
    catalog movie scores above [diversity_factor - 1] (so no MMR step
    abstains), it returns exactly [min(N, 50, P)] items. *)
Theorem diverse_recommendations_length (sqrt : Q -> Q) (up : user_profile)
  (fuzzy_movies_df : list movie_row) (user_rated_movies : list Z) (top_n : Z)
  (diversity_factor : Q) (l : list candidate)
  (HN : (0 <= top_n)%Z)
  (H : generate_diverse_recommendations sqrt up fuzzy_movies_df user_rated_movies top_n
         diversity_factor = Some l) :
  (length l <= Nat.min (Z.to_nat top_n)
                 (Nat.min 50 (available_pool_size fuzzy_movies_df user_rated_movies)))%nat /\
  (0 <= diversity_factor ->
   (forall m, In m fuzzy_movies_df ->
      diversity_factor - 1 < default_hybrid sqrt (profile up) (movie_profile_of m)) ->
   length l = Nat.min (Z.to_nat top_n)
                (Nat.min 50 (available_pool_size fuzzy_movies_df user_rated_movies))).
Proof.
  unfold generate_diverse_recommendations in H.
  pose proof (generate_recommendations_length sqrt up fuzzy_movies_df user_rated_movies 50
                ltac:(lia)) as Hlen.
  assert (Hpool : (forall m, In m fuzzy_movies_df ->
                     diversity_factor - 1 < default_hybrid sqrt (profile up) (movie_profile_of m)) ->
                  forall c, In c (generate_recommendations sqrt up fuzzy_movies_df
                                    user_rated_movies 50) ->
                  diversity_factor - 1 < similarity_score c).
  { intros Hscore c Hc. apply in_generate_recommendations in Hc.
    destruct Hc as [m [Hm ->]]. apply Hscore, Hm. }
  revert Hlen Hpool H.
  generalize (generate_recommendations sqrt up fuzzy_movies_df user_rated_movies 50)
    as pool.
  intros pool Hlen Hpool H. change (Z.to_nat 50) with 50%nat in Hlen.
  rewrite <- Hlen. clear Hlen.
  unfold mmr_rerank in H. destruct pool as [|first rest].
  - injection H as <-. simpl. split; [lia | intros; lia].
  - destruct (mmr_loop top_n diversity_factor (length rest) [first] rest)
      as [[diverse remaining]|] eqn:El; [|discriminate].
    injection H as <-. apply mmr_loop_inv in El; [|lia].
    destruct El as [HP [HL HS]].
    pose proof (Permutation_length HP) as HPl. rewrite !length_app in HPl.
    simpl in HPl, HL. rewrite py_take_length by exact HN. simpl.
    split; [lia|]. intros Hdf Hscore.
    destruct remaining as [|c rem'].
    + simpl in HPl. lia.
    + destruct HS as [HS|[HS|HS]]; [lia | discriminate |].
      exfalso. destruct (HS c (or_introl eq_refl)) as [s [Es Hs]].
      apply mmr_score_lower in Es; [|exact Hdf].
      assert (Hc : diversity_factor - 1 < similarity_score c).
      { apply (Hpool Hscore). apply (Permutation_in _ (Permutation_sym HP)).
        apply in_or_app. right. left. reflexivity. }
      lra.
Qed.

(** C2 (amended): [generate_diverse_recommendations] asks
    [generate_recommendations] for a fixed [top_n = 50], whatever its own
    [top_n]; its pool has [min(50, P)] entries. *)
Theorem diverse_pool_is_fixed_50 (sqrt : Q -> Q) (up : user_profile)
  (fuzzy_movies_df : list movie_row) (user_rated_movies : list Z) (top_n : Z)
  (diversity_factor : Q) :
  generate_diverse_recommendations sqrt up fuzzy_movies_df user_rated_movies top_n
    diversity_factor
  = mmr_rerank top_n diversity_factor
      (generate_recommendations sqrt up fuzzy_movies_df user_rated_movies 50) /\
  length (generate_recommendations sqrt up fuzzy_movies_df user_rated_movies 50)
  = Nat.min 50 (available_pool_size fuzzy_movies_df user_rated_movies).
Proof.
  split; [reflexivity|].
  apply generate_recommendations_length. lia.
Qed.

(** C3: the genre overlap divides by [max(len(selected_genres),
    len(candidate_genres))] without a guard: two unrated movies whose genre
    strengths are all at most [0.1] get empty ['genres'] lists, and the MMR
    loop raises [ZeroDivisionError] instead of using a penalty of [0]. *)
Theorem empty_genres_zero_division :
  map genres (generate_recommendations np_sqrt action_user faint_catalog [] 50) = [[]; []] /\
  generate_diverse_recommendations np_sqrt action_user faint_catalog [] 2 (3#10) = None.
Proof. split; vm_compute; reflexivity. Qed.

(** C4 (amended): the MMR loop of [generate_diverse_recommendations], run
    on a non-empty pool, stops with fewer than [top_n] items only when the
    remaining pool is empty or when no remaining candidate has an MMR score
    above [-1], the initial [best_score]: then [best_index] stays [-1] and
    the loop breaks. *)
Theorem mmr_early_stop_only_empty_or_abstain (top_n : Z) (diversity_factor : Q)
  (first : candidate) (rest diverse remaining : list candidate)
  (H : mmr_loop top_n diversity_factor (length rest) [first] rest
       = Some (diverse, remaining)) :
  (top_n <= Z.of_nat (length diverse))%Z \/ remaining = [] \/
  stops_with_all_below diversity_factor diverse remaining.
Proof. apply mmr_loop_inv in H; [apply H | lia]. Qed.

(** C10: every list the call returns is, as a multiset, part of the pool
    it was selected from: each pool entry appears at most as often as in the
    pool, and a pool without repeated entries gives an output without
    repeated entries. *)
Theorem diverse_recommendations_no_repeat (sqrt : Q -> Q) (up : user_profile)
  (fuzzy_movies_df : list movie_row) (user_rated_movies : list Z) (top_n : Z)
  (diversity_factor : Q) (l : list candidate)
  (H : generate_diverse_recommendations sqrt up fuzzy_movies_df user_rated_movies top_n
         diversity_factor = Some l) :
  let pool := generate_recommendations sqrt up fuzzy_movies_df user_rated_movies 50 in
  (exists unused, Permutation pool (l ++ unused)) /\ (NoDup pool -> NoDup l).
Proof.
  intro pool.
  assert (Hperm : exists unused, Permutation pool (l ++ unused)).
  { unfold generate_diverse_recommendations, mmr_rerank in H. fold pool in H.
    destruct pool as [|first rest].
    - injection H as <-. exists []. reflexivity.
    - destruct (mmr_loop top_n diversity_factor (length rest) [first] rest)
        as [[diverse remaining]|] eqn:El; [|discriminate].
      injection H as <-. apply mmr_loop_inv in El; [|lia].
      destruct El as [HP _].
      assert (Ht : exists k, py_take top_n diverse = firstn k diverse)
        by (unfold py_take; destruct (0 <=? top_n)%Z; eexists; reflexivity).
      destruct Ht as [k ->].
      exists (skipn k diverse ++ remaining).
      rewrite app_assoc, firstn_skipn. exact HP. }
  split; [exact Hperm|].
  intro Hnd. destruct Hperm as [unused HP].
  apply (Permutation_NoDup HP) in Hnd. apply NoDup_app_remove_r in Hnd. exact Hnd.
Qed.

(** ** Counterexamples *)

(** C1 fails as stated: with 51 unrated movies and [top_n = 51] the call
    returns 50 items, not [min(51, 51)]. *)
Lemma diverse_length_counterexample :
  ~ (forall up fuzzy_movies_df user_rated_movies top_n diversity_factor l,
       (0 <= top_n)%Z ->
       generate_diverse_recommendations np_sqrt up fuzzy_movies_df user_rated_movies
         top_n diversity_factor = Some l ->
       length l = Nat.min (Z.to_nat top_n)
                    (available_pool_size fuzzy_movies_df user_rated_movies)).
Proof.
  intro Hc.
  destruct (generate_diverse_recommendations np_sqrt action_user (action_catalog 51) []
              51 (3#10)) as [l|] eqn:E; [|vm_compute in E; discriminate].
  assert (Hl : length l = 50%nat).
  { assert (H50 : option_map (@length _) (generate_diverse_recommendations np_sqrt
                    action_user (action_catalog 51) [] 51 (3#10)) = Some 50%nat)
      by (vm_compute; reflexivity).
    rewrite E in H50. simpl in H50. congruence. }
  specialize (Hc action_user (action_catalog 51) [] 51%Z (3#10) l ltac:(lia) E).
  rewrite Hl in Hc.
  vm_compute in Hc. discriminate Hc.
Qed.

(** C2 fails as stated: on 51 unrated movies with [top_n = 51], taking the
    pool [min(5 * top_n, P)] would give 51 items; the code gives 50. *)
Lemma diverse_pool_counterexample :
  ~ (forall up fuzzy_movies_df user_rated_movies top_n diversity_factor,
       generate_diverse_recommendations np_sqrt up fuzzy_movies_df user_rated_movies
         top_n diversity_factor
       = mmr_rerank top_n diversity_factor
           (generate_recommendations np_sqrt up fuzzy_movies_df user_rated_movies
              (Z.min (5 * top_n)
                 (Z.of_nat (available_pool_size fuzzy_movies_df user_rated_movies))))).
Proof.
  intro Hc. specialize (Hc action_user (action_catalog 51) [] 51%Z (3#10)).
  apply (f_equal (option_map (@length _))) in Hc. vm_compute in Hc. discriminate Hc.
Qed.

(** C4 fails as stated: two unrated movies of score [0] sharing their only
    genre, [diversity_factor = 1], [top_n = 2]: the second candidate scores
    [0 - 1 * 1 = -1], which is not above [best_score = -1], so the loop
    breaks with one item while the pool still holds one. *)
Lemma mmr_abstention_counterexample :
  ~ (forall up fuzzy_movies_df user_rated_movies top_n diversity_factor l,
       0 <= diversity_factor <= 1 -> (0 <= top_n)%Z ->
       generate_diverse_recommendations np_sqrt up fuzzy_movies_df user_rated_movies
         top_n diversity_factor = Some l ->
       length l = Nat.min (Z.to_nat top_n)
         (length (generate_recommendations np_sqrt up fuzzy_movies_df
                    user_rated_movies 50))).
Proof.
  intro Hc.
  destruct (generate_diverse_recommendations np_sqrt comedy_user (action_catalog 2) []
              2 1) as [l|] eqn:E; [|vm_compute in E; discriminate].
  assert (Hl : length l = 1%nat).
  { assert (H1 : option_map (@length _) (generate_diverse_recommendations np_sqrt
                   comedy_user (action_catalog 2) [] 2 1) = Some 1%nat)
      by (vm_compute; reflexivity).
    rewrite E in H1. simpl in H1. congruence. }
  assert (H01 : 0 <= 1 <= 1) by lra.
  specialize (Hc comedy_user (action_catalog 2) [] 2%Z 1 l H01 ltac:(lia) E).
  rewrite Hl in Hc. vm_compute in Hc. discriminate Hc.
Qed.

(** C5 fails as stated: [top_n = -1] yields a non-empty partial list, and
    weights with an unknown key are accepted. *)
Lemma input_validation_counterexample :
  length (generate_recommendations np_sqrt scenario_user scenario_catalog [] (-1)) = 1%nat /\
  hybrid_similarity np_sqrt (Some weights_extra_key)
    (profile scenario_user) (movie_profile_of (hd (MovieRow 0 "" []) scenario_catalog))
  <> None.
Proof. split; vm_compute; [reflexivity | discriminate]. Qed.

(** C9 fails as stated: a profile non-zero only on the sentinel genre
    ['unknown'], which is a genre of [GENRES], has [fuzzy_jaccard A A = 0]. *)
Lemma fuzzy_jaccard_sentinel_counterexample :
  ~ (forall A : dict, (forall g, 0 <= get A g) ->
       (exists g, In g GENRES /\ ~ get A g == 0) -> fuzzy_jaccard A A == 1).
Proof.
  intro Hc.
  assert (Hnn : forall g, 0 <= get sentinel_profile g).
  { intro g. unfold get, sentinel_profile, lookup.
    destruct (String.eqb g "unknown"); apply Qle_bool_iff; reflexivity. }
  assert (Hex : exists g, In g GENRES /\ ~ get sentinel_profile g == 0).
  { exists "unknown"%string. split; [left; reflexivity|].
    intro H. vm_compute in H. discriminate H. }
  specialize (Hc sentinel_profile Hnn Hex). vm_compute in Hc. discriminate Hc.
Qed.

(** ** Witnesses *)

Lemma get_nonneg (d : dict) :
  forallb (fun kv => Qle_bool 0 (snd kv)) d = true -> forall g, 0 <= get d g.
Proof.
  intros Hd g. unfold get. induction d as [|[k v] t IH]; simpl in *; [apply Qle_refl|].
  apply andb_true_iff in Hd. destruct Hd as [Hv Ht].
  destruct (String.eqb g k); [apply Qle_bool_iff, Hv | exact (IH Ht)].
Qed.

Lemma diverse_recommendations_length_witness :
  option_map (@length _)
    (generate_diverse_recommendations np_sqrt action_user (action_catalog 3) [] 2 (3#10))
  = Some (Nat.min 2 (Nat.min 50 (available_pool_size (action_catalog 3) []))).
Proof.
  destruct (generate_diverse_recommendations np_sqrt action_user (action_catalog 3) []
              2 (3#10)) as [l|] eqn:E; [|vm_compute in E; discriminate].
  simpl. f_equal.
  apply (proj2 (diverse_recommendations_length np_sqrt action_user (action_catalog 3) [] 2
                  (3#10) l ltac:(lia) E)).
  - apply Qle_bool_iff. reflexivity.
  - intros m Hm. simpl in Hm.
    repeat (destruct Hm as [<-|Hm]; [vm_compute; reflexivity|]). destruct Hm.
Defined.

Lemma mmr_early_stop_only_empty_or_abstain_witness :
  mmr_loop 2 1 1 [zero_candidate 1] [zero_candidate 2]
  = Some ([zero_candidate 1], [zero_candidate 2]) /\
  ((2 <= Z.of_nat (length [zero_candidate 1]))%Z \/ [zero_candidate 2] = [] \/
   stops_with_all_below 1 [zero_candidate 1] [zero_candidate 2]).
Proof.
  assert (E : mmr_loop 2 1 1 [zero_candidate 1] [zero_candidate 2]
              = Some ([zero_candidate 1], [zero_candidate 2])) by (vm_compute; reflexivity).
  split; [exact E|].
  exact (mmr_early_stop_only_empty_or_abstain 2 1 (zero_candidate 1) [zero_candidate 2]
           [zero_candidate 1] [zero_candidate 2] E).
Defined.

Lemma diverse_recommendations_no_repeat_witness :
  match generate_diverse_recommendations np_sqrt action_user (action_catalog 3) [] 2 (3#10)
  with
  | Some l =>
      let pool := generate_recommendations np_sqrt action_user (action_catalog 3) [] 50 in
      (exists unused, Permutation pool (l ++ unused)) /\ (NoDup pool -> NoDup l)
  | None => False
  end.
Proof.
  destruct (generate_diverse_recommendations np_sqrt action_user (action_catalog 3) []
              2 (3#10)) as [l|] eqn:E; [|vm_compute in E; discriminate].
  exact (diverse_recommendations_no_repeat np_sqrt action_user (action_catalog 3) [] 2
           (3#10) l E).
Defined.

Lemma no_input_validation_witness :
  (-1 < 0)%Z /\
  generate_recommendations np_sqrt scenario_user scenario_catalog [] (-1)
  = firstn (available_pool_size scenario_catalog [] - Z.to_nat (- -1))
      (generate_recommendations np_sqrt scenario_user scenario_catalog []
         (Z.of_nat (available_pool_size scenario_catalog []))) /\
  hybrid_similarity np_sqrt (Some weights_extra_key) (profile scenario_user) sentinel_profile
  = hybrid_similarity np_sqrt (Some (filter recognized_weight weights_extra_key))
      (profile scenario_user) sentinel_profile.
Proof.
  split; [lia|].
  exact (no_input_validation np_sqrt scenario_user scenario_catalog [] (-1) ltac:(lia)
           weights_extra_key (profile scenario_user) sentinel_profile).
Defined.

Lemma fuzzy_jaccard_formula_witness :
  let A := profile scenario_user in
  let B := movie_profile_of (MovieRow 1 "M1" [("Comedy", 9#10); ("Romance", 1#2)]%string) in
  let num := qsum (map (fun g => py_min (get A g) (get B g)) scored_genres) in
  let den := qsum (map (fun g => py_max (get A g) (get B g)) scored_genres) in
  (den == 0 -> fuzzy_jaccard A B = 0) /\ (~ den == 0 -> fuzzy_jaccard A B = num / den).
Proof.
  apply fuzzy_jaccard_formula; apply get_nonneg; vm_compute; reflexivity.
Defined.

Lemma fuzzy_jaccard_self_witness :
  fuzzy_jaccard (profile scenario_user) (profile scenario_user) == 1 /\
  fuzzy_jaccard sentinel_profile sentinel_profile == 0.
Proof.
  split.
  - apply (proj1 (fuzzy_jaccard_self (profile scenario_user))).
    + apply get_nonneg. vm_compute. reflexivity.
    + exists "Comedy"%string. split.
      * vm_compute. do 4 right. left. reflexivity.
      * intro H. vm_compute in H. discriminate H.
  - apply (proj2 (fuzzy_jaccard_self sentinel_profile)).
    intros g Hg. unfold get, sentinel_profile, lookup.
    destruct (String.eqb_spec g "unknown"); [contradiction | reflexivity].
Defined.

(** ** Further properties of the code *)

(** *** GenreFuzzifier.binary_to_fuzzy *)

Lemma lookup_dict_set_eq k v d : lookup k (dict_set k v d) = Some v.
Proof.
  induction d as [|[k' v'] t IH]; simpl; [rewrite String.eqb_refl; reflexivity|].
  destruct (String.eqb_spec k k') as [->|Hne]; simpl.
  - rewrite String.eqb_refl. reflexivity.
  - apply String.eqb_neq in Hne. rewrite Hne. exact IH.
Qed.

Lemma lookup_dict_set_neq k k' v d :
  k <> k' -> lookup k (dict_set k' v d) = lookup k d.
Proof.
  intro Hne. induction d as [|[k'' v'] t IH]; simpl.
  - apply String.eqb_neq in Hne. rewrite Hne. reflexivity.
  - destruct (String.eqb_spec k' k'') as [->|Hne']; simpl.
    + apply String.eqb_neq in Hne. rewrite Hne. reflexivity.
    + rewrite IH. reflexivity.
Qed.

Lemma lookup_mem k v d : lookup k d = Some v -> dict_mem k d = true.
Proof.
  induction d as [|[k' v'] t IH]; simpl; [discriminate|].
  destruct (String.eqb k k'); [reflexivity|]. intro H. rewrite IH by exact H.
  apply Bool.orb_true_r.
Qed.

Lemma add_related_keep rand rels st k v :
  lookup k (fst st) = Some v -> lookup k (fst (add_related rand rels st)) = Some v.
Proof.
  unfold add_related. revert st.
  induction rels as [|[rg s] t IH]; intros [fv n] H; simpl in *; [exact H|].
  destruct (dict_mem rg fv) eqn:E; apply IH; [exact H|]. simpl.
  rewrite lookup_dict_set_neq; [exact H|]. intros ->.
  rewrite (lookup_mem _ _ _ H) in E. discriminate.
Qed.

Lemma b2f_fold_none rand gv l : fold_left (b2f_step rand gv) l None = None.
Proof. induction l as [|x t IH]; simpl; [reflexivity | exact IH]. Qed.

(** A genre whose entry is set keeps it through later iterations over other
    genres: the main assignment writes another key, the related assignments
    skip keys already present. *)
Lemma b2f_keep rand gv l st fv' n' k v :
  ~ In k l -> lookup k (fst st) = Some v ->
  fold_left (b2f_step rand gv) l (Some st) = Some (fv', n') -> lookup k fv' = Some v.
Proof.
  revert st. induction l as [|x t IH]; intros [fv n] Hk Hv H.
  - simpl in H. injection H as <- _. exact Hv.
  - assert (Hx : k <> x) by (intro; apply Hk; left; congruence).
    assert (Ht : ~ In k t) by (intro; apply Hk; right; assumption).
    change (fold_left (b2f_step rand gv) t (b2f_step rand gv (Some (fv, n)) x)
            = Some (fv', n')) in H.
    destruct (b2f_step rand gv (Some (fv, n)) x) as [st'|] eqn:Es;
      [|rewrite b2f_fold_none in H; discriminate].
    apply (IH st' Ht); [|exact H].
    assert (Hs : forall w, lookup k (dict_set x w fv) = Some v)
      by (intro w; rewrite lookup_dict_set_neq by exact Hx; exact Hv).
    unfold b2f_step in Es.
    destruct (is_unknown x); [injection Es as <-; exact Hv|].
    destruct (flag_lookup x gv) as [b|]; [|discriminate].
    destruct (negb (b =? 0)%Z).
    + destruct (relationships_of x genre_relationships) as [rels|];
        injection Es as <-; [apply add_related_keep|]; apply Hs.
    + injection Es as <-. apply Hs.
Qed.

(** After the loop, a genre of the loop other than ['unknown'] holds the
    value written at its own iteration. *)
Lemma b2f_visit rand gv l st fv' n' g :
  NoDup l -> In g l -> is_unknown g = false ->
  fold_left (b2f_step rand gv) l (Some st) = Some (fv', n') ->
  exists b v, flag_lookup g gv = Some b /\ lookup g fv' = Some v /\
    (b = 0%Z -> v = 0) /\ (b <> 0%Z -> exists n, v = uniform (7#10) 1 (rand n)).
Proof.
  revert st. induction l as [|x t IH]; intros [fv n] Hnd Hg Hu H; [destruct Hg|].
  apply NoDup_cons_iff in Hnd. destruct Hnd as [Hxt Hnd].
  change (fold_left (b2f_step rand gv) t (b2f_step rand gv (Some (fv, n)) x)
          = Some (fv', n')) in H.
  destruct (b2f_step rand gv (Some (fv, n)) x) as [st'|] eqn:Es;
    [|rewrite b2f_fold_none in H; discriminate].
  destruct Hg as [->|Hg]; [|exact (IH st' Hnd Hg Hu H)].
  unfold b2f_step in Es. rewrite Hu in Es.
  destruct (flag_lookup g gv) as [b|] eqn:Ef; [|discriminate].
  exists b. destruct (Z.eqb_spec b 0) as [Hb|Hb]; simpl negb in Es.
  - exists 0. split; [reflexivity|]. split; [|split; [reflexivity | contradiction]].
    injection Es as <-. refine (b2f_keep _ _ _ _ _ _ _ _ Hxt _ H).
    apply lookup_dict_set_eq.
  - exists (uniform (7#10) 1 (rand n)). split; [reflexivity|].
    split; [|split; [contradiction | exists n; reflexivity]].
    refine (b2f_keep _ _ _ _ _ _ _ _ Hxt _ H).
    destruct (relationships_of g genre_relationships) as [rels|];
      injection Es as <-; [apply add_related_keep|]; apply lookup_dict_set_eq.
Qed.



Lemma genres_nodup : NoDup GENRES.
Proof.
  unfold GENRES. repeat constructor; simpl; intuition discriminate.
Qed.

Lemma in_scored_genres g : In g scored_genres -> In g GENRES /\ is_unknown g = false.
Proof.
  unfold scored_genres. rewrite filter_In. intros [H1 H2]. split; [exact H1|].
  destruct (is_unknown g); [discriminate | reflexivity].
Qed.



Lemma lookup_some_in_keys k d v : lookup k d = Some v -> In k (map fst d).
Proof.
  induction d as [|[k' v'] t IH]; simpl; [discriminate|].
  destruct (String.eqb_spec k k') as [->|_]; [left; reflexivity|].
  intro H. right. exact (IH H).
Qed.

Lemma dict_set_keys_in k v d k' :
  In k' (map fst (dict_set k v d)) <-> k = k' \/ In k' (map fst d).
Proof.
  induction d as [|[k1 v1] t IH]; simpl.
  - split; [intros [->|[]]; left; reflexivity | intros [->|[]]; left; reflexivity].
  - destruct (String.eqb_spec k k1) as [->|Hne]; simpl.
    + split; [intro H; right; exact H | intros [->|H]; [left; reflexivity | exact H]].
    + rewrite IH. tauto.
Qed.

Lemma dict_set_nodup k v d : NoDup (map fst d) -> NoDup (map fst (dict_set k v d)).
Proof.
  induction d as [|[k1 v1] t IH]; simpl; intro Hnd.
  - repeat constructor. intros [].
  - apply NoDup_cons_iff in Hnd. destruct Hnd as [Hk1 Hnd].
    destruct (String.eqb_spec k k1) as [->|Hne]; simpl; constructor; try assumption.
    + rewrite dict_set_keys_in. intros [->|H]; [apply Hne; reflexivity | exact (Hk1 H)].
    + apply IH, Hnd.
Qed.

(** The inner loop only adds the related genres, each once. *)
Lemma add_related_keys rand rels fv n fv' n' :
  NoDup (map fst fv) -> add_related rand rels (fv, n) = (fv', n') ->
  NoDup (map fst fv') /\
  forall k, In k (map fst fv') <-> In k (map fst fv) \/ In k (map fst rels).
Proof.
  unfold add_related. revert fv n.
  induction rels as [|[rg s] t IH]; intros fv n Hnd H; simpl in H.
  - injection H as <- <-. split; [exact Hnd|]. intro k. simpl. tauto.
  - destruct (dict_mem rg fv) eqn:E.
    + destruct (IH fv n Hnd H) as [H1 H2]. split; [exact H1|].
      intro k. rewrite H2. simpl. split; [tauto|].
      intros [Hk|[<-|Hk]]; [left; exact Hk| |right; exact Hk].
      left. unfold dict_mem in E. apply existsb_exists in E. destruct E as [[k' v'] [Hin Heq]].
      apply String.eqb_eq in Heq. simpl in Heq. subst. apply (in_map fst _ _ Hin).
    + destruct (IH _ _ (dict_set_nodup rg _ fv Hnd) H) as [H1 H2]. split; [exact H1|].
      intro k. rewrite H2, dict_set_keys_in. simpl. tauto.
Qed.

Lemma relationships_of_in g rels d : relationships_of g rels = Some d -> In d (map snd rels).
Proof.
  induction rels as [|[g' d'] t IH]; simpl; [discriminate|].
  destruct (String.eqb g g'); [intro H; injection H as ->; left; reflexivity|].
  intro H. right. exact (IH H).
Qed.

Lemma related_scored g rels k :
  relationships_of g genre_relationships = Some rels -> In k (map fst rels) ->
  In k scored_genres.
Proof.
  intros Hr Hk. apply relationships_of_in in Hr.
  assert (Hall : forallb (fun d => forallb (fun k => existsb (String.eqb k) scored_genres)
                   (map fst d)) (map snd genre_relationships) = true) by reflexivity.
  rewrite forallb_forall in Hall. specialize (Hall _ Hr). rewrite forallb_forall in Hall.
  specialize (Hall _ Hk). apply existsb_exists in Hall. destruct Hall as [x [Hx Heq]].
  apply String.eqb_eq in Heq. subst. exact Hx.
Qed.

(** The loop writes only genres of the loop and their related genres, each
    key once. *)
Lemma b2f_keys rand gv l fv n fv' n' :
  (forall x, In x l -> In x GENRES) -> NoDup (map fst fv) ->
  fold_left (b2f_step rand gv) l (Some (fv, n)) = Some (fv', n') ->
  NoDup (map fst fv') /\
  forall k, In k (map fst fv') -> In k (map fst fv) \/ In k scored_genres.
Proof.
  revert fv n. induction l as [|x t IH]; intros fv n Hl Hnd H.
  - injection H as <- <-. split; [exact Hnd|]. intros k Hk. left. exact Hk.
  - change (fold_left (b2f_step rand gv) t (b2f_step rand gv (Some (fv, n)) x)
            = Some (fv', n')) in H.
    destruct (b2f_step rand gv (Some (fv, n)) x) as [[fv1 n1]|] eqn:Es;
      [|rewrite b2f_fold_none in H; discriminate].
    assert (Hstep : NoDup (map fst fv1) /\
              forall k, In k (map fst fv1) -> In k (map fst fv) \/ In k scored_genres).
    { unfold b2f_step in Es. destruct (is_unknown x) eqn:Hu.
      - injection Es as <- <-. split; [exact Hnd|]. intros k Hk. left. exact Hk.
      - assert (Hxs : In x scored_genres).
        { unfold scored_genres. apply filter_In. split; [apply Hl; left; reflexivity|].
          rewrite Hu. reflexivity. }
        assert (Hset : forall v, NoDup (map fst (dict_set x v fv)) /\
                  forall k, In k (map fst (dict_set x v fv)) ->
                            In k (map fst fv) \/ In k scored_genres).
        { intro v. split; [apply dict_set_nodup, Hnd|].
          intros k Hk. apply dict_set_keys_in in Hk. destruct Hk as [->|Hk]; [right|left]; assumption. }
        destruct (flag_lookup x gv) as [b|]; [|discriminate].
        destruct (negb (b =? 0)%Z).
        + destruct (relationships_of x genre_relationships) as [rels|] eqn:Er.
          * injection Es as Es.
            destruct (Hset (uniform (7#10) 1 (rand n))) as [Hn1 Hk1].
            destruct (add_related_keys rand rels _ (S n) fv1 n1 Hn1 Es) as [Hn2 Hk2].
            split; [exact Hn2|]. intros k Hk. apply Hk2 in Hk. destruct Hk as [Hk|Hk].
            -- exact (Hk1 k Hk).
            -- right. exact (related_scored _ _ _ Er Hk).
          * injection Es as <- <-. apply Hset.
        + injection Es as <- <-. apply Hset. }
    destruct Hstep as [Hn1 Hk1].
    destruct (IH fv1 n1 (fun y Hy => Hl y (or_intror Hy)) Hn1 H) as [Hn2 Hk2].
    split; [exact Hn2|]. intros k Hk. destruct (Hk2 k Hk) as [Hk'|Hk']; [exact (Hk1 k Hk')|].
    right. exact Hk'.
Qed.

Lemma b2f_fold_none_inv rand gv l st :
  fold_left (b2f_step rand gv) l (Some st) = None ->
  exists g, In g l /\ is_unknown g = false /\ flag_lookup g gv = None.
Proof.
  revert st. induction l as [|x t IH]; intros [fv n] H; [discriminate|].
  change (fold_left (b2f_step rand gv) t (b2f_step rand gv (Some (fv, n)) x) = None) in H.
  destruct (b2f_step rand gv (Some (fv, n)) x) as [st'|] eqn:Es.
  - destruct (IH st' H) as [g [Hg Hrest]]. exists g. split; [right; exact Hg | exact Hrest].
  - exists x. split; [left; reflexivity|]. unfold b2f_step in Es.
    destruct (is_unknown x); [discriminate|]. split; [reflexivity|].
    destruct (flag_lookup x gv); [|reflexivity].
    destruct (negb _); [destruct (relationships_of _ _)|]; discriminate.
Qed.

(** X1: [binary_to_fuzzy] fails with a [KeyError] exactly when the binary
    vector lacks one of the 18 genres other than ['unknown']; otherwise the
    fuzzy vector has exactly those 18 genres as keys, each once. *)
Theorem binary_to_fuzzy_keys (rand : nat -> Q) (genre_vector : list (string * Z)) :
  (binary_to_fuzzy rand genre_vector = None <->
   exists g, In g scored_genres /\ flag_lookup g genre_vector = None) /\
  (forall fv, binary_to_fuzzy rand genre_vector = Some fv ->
   NoDup (map fst fv) /\ forall g, In g (map fst fv) <-> In g scored_genres).
Proof.
  unfold binary_to_fuzzy.
  destruct (fold_left (b2f_step rand genre_vector) GENRES (Some ([], O)))
    as [[fv0 n0]|] eqn:E.
  - split.
    + split; [discriminate|]. intros [g [Hg Hf]]. apply in_scored_genres in Hg.
      destruct Hg as [Hg Hu].
      destruct (b2f_visit _ _ _ _ _ _ g genres_nodup Hg Hu E) as [b [_ [Hb _]]].
      rewrite Hf in Hb. discriminate.
    + intros fv H. injection H as <-. rewrite map_map. cbn [fst].
      destruct (b2f_keys rand genre_vector GENRES [] O fv0 n0 (fun x Hx => Hx) (NoDup_nil _) E)
        as [Hnd Hk].
      split; [exact Hnd|]. intro g. split.
      * intro Hg. destruct (Hk g Hg) as [[]|Hg']. exact Hg'.
      * intro Hg. apply in_scored_genres in Hg. destruct Hg as [Hg Hu].
        destruct (b2f_visit _ _ _ _ _ _ g genres_nodup Hg Hu E) as [b [v [_ [Hv _]]]].
        exact (lookup_some_in_keys _ _ _ Hv).
  - split; [|discriminate]. split; [intros _|reflexivity].
    destruct (b2f_fold_none_inv _ _ _ _ E) as [g [Hg [Hu Hf]]].
    exists g. split; [|exact Hf]. unfold scored_genres. apply filter_In.
    split; [exact Hg | rewrite Hu; reflexivity].
Qed.

(** *** RecommendationEvaluator *)

Lemma nodup_length_le {A} dec (l : list A) : (length (nodup dec l) <= length l)%nat.
Proof.
  apply NoDup_incl_length; [apply NoDup_nodup|]. intros x Hx. apply nodup_In in Hx. exact Hx.
Qed.

Lemma inter_count_le_l a b : (inter_count a b <= length a)%nat.
Proof.
  unfold inter_count. etransitivity; [apply filter_length_le | apply nodup_length_le].
Qed.

Lemma inter_count_le_r a b : (inter_count a b <= length b)%nat.
Proof.
  unfold inter_count. apply NoDup_incl_length.
  - apply NoDup_filter, NoDup_nodup.
  - intros x Hx. apply filter_In in Hx. destruct Hx as [_ Hx].
    apply existsb_exists in Hx. destruct Hx as [y [Hy Hxy]]. apply Z.eqb_eq in Hxy.
    subst y. exact Hy.
Qed.

Lemma ratio_bounds (a b : nat) :
  (a <= b)%nat -> (0 < b)%nat ->
  0 <= inject_Z (Z.of_nat a) / inject_Z (Z.of_nat b) <= 1.
Proof.
  intros Hab Hb.
  assert (Hb' : 0 < inject_Z (Z.of_nat b))
    by (change 0 with (inject_Z 0); rewrite <- Zlt_Qlt; lia).
  split.
  - apply Qle_shift_div_l; [exact Hb'|]. rewrite Qmult_0_l.
    change 0 with (inject_Z 0). rewrite <- Zle_Qle. lia.
  - apply Qle_shift_div_r; [exact Hb'|]. rewrite Qmult_1_l. rewrite <- Zle_Qle. lia.
Qed.

(** X10: for [k >= 1], [calculate_precision_at_k] returns a value in [[0, 1]]. *)
Theorem precision_at_k_bounds (recommended_movies test_movies : list Z) (k : Z)
  (Hk : (1 <= k)%Z) :
  exists p, calculate_precision_at_k recommended_movies test_movies k = Some p /\
            0 <= p <= 1.
Proof.
  unfold calculate_precision_at_k. destruct recommended_movies as [|x t].
  - exists 0. split; [reflexivity | split; discriminate].
  - destruct (Z.eqb_spec k 0) as [->|_]; [lia|].
    eexists; split; [reflexivity|].
    set (top := py_take k (x :: t)).
    assert (Ht : (length top <= Z.to_nat k)%nat)
      by (unfold top; rewrite py_take_length by lia; lia).
    assert (Hi := inter_count_le_l top test_movies).
    assert (Hq : inject_Z k = inject_Z (Z.of_nat (Z.to_nat k))) by (rewrite Z2Nat.id by lia; reflexivity).
    rewrite Hq. apply ratio_bounds; lia.
Qed.

(** X12: [calculate_recall_at_k] returns a value in [[0, 1]], and [0] when
    the test list is empty. *)
Theorem recall_at_k_bounds (recommended_movies test_movies : list Z) (k : Z) :
  0 <= calculate_recall_at_k recommended_movies test_movies k <= 1 /\
  (test_movies = [] -> calculate_recall_at_k recommended_movies test_movies k = 0).
Proof.
  unfold calculate_recall_at_k. destruct recommended_movies as [|x t].
  - split; [split; discriminate | reflexivity].
  - destruct (length test_movies) as [|n] eqn:En; [split; [split; discriminate | reflexivity]|].
    split; [|intros ->; discriminate].
    rewrite <- En. apply ratio_bounds; [apply inter_count_le_r | lia].
Qed.

Lemma genre_dissimilarity_bounds a b : 0 <= genre_dissimilarity a b <= 1.
Proof.
  unfold genre_dissimilarity.
  set (gi := genre_set a). set (gj := genre_set b).
  set (i := length (filter _ gi)).
  assert (Hi : (i <= length gi)%nat) by apply filter_length_le.
  assert (Hu : (length gi <= length (nodup string_dec (gi ++ gj)))%nat).
  { apply NoDup_incl_length; [apply NoDup_nodup|].
    intros x Hx. apply nodup_In, in_or_app. left. exact Hx. }
  destruct (length (nodup string_dec (gi ++ gj))) as [|u] eqn:E.
  - split; [discriminate | apply Qle_refl].
  - destruct (ratio_bounds i (S u)) as [H0 H1]; [lia | lia |]. split; lra.
Qed.

Lemma diversity_fold_bounds pairs (acc : Q * nat) :
  0 <= fst acc <= inject_Z (Z.of_nat (snd acc)) ->
  let r := fold_left (fun acc ij =>
             (fst acc + genre_dissimilarity (fst ij) (snd ij), (snd acc + 1)%nat)) pairs acc in
  0 <= fst r <= inject_Z (Z.of_nat (snd r)).
Proof.
  revert acc. induction pairs as [|[x y] t IH]; intros [s n] H; simpl; [exact H|].
  apply IH. simpl in *. destruct (genre_dissimilarity_bounds x y).
  rewrite Nat2Z.inj_add, inject_Z_plus. change (inject_Z (Z.of_nat 1)) with 1. lra.
Qed.

(** X14: [calculate_diversity] returns a value in [[0, 1]]. *)
Theorem calculate_diversity_bounds (recommendations : list candidate) :
  0 <= calculate_diversity recommendations <= 1.
Proof.
  unfold calculate_diversity.
  destruct (length recommendations <? 2)%nat; [split; discriminate|].
  pose proof (diversity_fold_bounds (ordered_pairs recommendations) (0, O)) as H.
  simpl in H. destruct (fold_left _ (ordered_pairs recommendations) (0, O)) as [s n].
  destruct H as [H0 H1]; [split; discriminate|]. simpl in H0, H1.
  destruct n as [|n]; [split; discriminate|].
  assert (Hn : 0 < inject_Z (Z.of_nat (S n)))
    by (change 0 with (inject_Z 0); rewrite <- Zlt_Qlt; lia).
  split.
  - apply Qle_shift_div_l; [exact Hn|]. lra.
  - apply Qle_shift_div_r; [exact Hn|]. lra.
Qed.

Section NDCGFacts.
Variable log2 : nat -> Q.
Hypothesis Hlog_pos : forall i, 0 < log2 (i + 2)%nat.
Hypothesis Hlog_mono : forall i j, (i <= j)%nat -> log2 (i + 2)%nat <= log2 (j + 2)%nat.

Lemma fold_sum_right {A} (g : A -> Q) (l : list A) (a : Q) :
  fold_left (fun acc x => acc + g x) l a == a + fold_right (fun x s => g x + s) 0 l.
Proof.
  revert a. induction l as [|x t IH]; intro a; simpl; [ring|].
  rewrite IH. ring.
Qed.

Lemma dsum_cons o r t :
  dsum_from log2 o (r :: t) = r / log2 (o + 2)%nat + dsum_from log2 (S o) t.
Proof. reflexivity. Qed.

Lemma discounted_sum_from rels : discounted_sum log2 rels == dsum_from log2 0 rels.
Proof.
  unfold discounted_sum, enumerate, dsum_from.
  rewrite (fold_sum_right (fun ir : nat * Q => snd ir / log2 (fst ir + 2)%nat)). ring.
Qed.

Lemma inv_anti x y : 0 < y -> y <= x -> 1 / x <= 1 / y.
Proof.
  intros Hy Hyx. destruct (Qle_lt_or_eq _ _ Hyx) as [Hlt|Heq].
  - assert (Hx : 0 < x) by lra.
    apply (Qinv_lt_contravar y x Hy Hx) in Hlt. unfold Qdiv. rewrite !Qmult_1_l. lra.
  - rewrite Heq. apply Qle_refl.
Qed.

Lemma inv_log_pos i : 0 <= 1 / log2 (i + 2)%nat.
Proof.
  unfold Qdiv. rewrite Qmult_1_l. apply Qlt_le_weak, Qinv_lt_0_compat, Hlog_pos.
Qed.

Lemma dsum_ones_shift o c : dsum_from log2 (S o) (repeat 1 c) <= dsum_from log2 o (repeat 1 c).
Proof.
  revert o. induction c as [|c IH]; intro o; [apply Qle_refl|].
  simpl repeat. rewrite !dsum_cons.
  pose proof (inv_anti _ _ (Hlog_pos o) (Hlog_mono o (S o) (Nat.le_succ_diag_r o))).
  specialize (IH (S o)). lra.
Qed.

Lemma dsum_ones_nonneg o m : 0 <= dsum_from log2 o (repeat 1 m).
Proof.
  revert o. induction m as [|m IH]; intro o; [apply Qle_refl|].
  simpl repeat. rewrite dsum_cons. pose proof (inv_log_pos o). specialize (IH (S o)). lra.
Qed.

Lemma dsum_ones_mono o c m : (c <= m)%nat -> dsum_from log2 o (repeat 1 c) <= dsum_from log2 o (repeat 1 m).
Proof.
  revert o m. induction c as [|c IH]; intros o m Hcm.
  - apply dsum_ones_nonneg.
  - destruct m as [|m]; [lia|]. simpl repeat. rewrite !dsum_cons.
    specialize (IH (S o) m ltac:(lia)). lra.
Qed.

Lemma dsum_bools o bs :
  0 <= dsum_from log2 o (map b2q bs) <= dsum_from log2 o (repeat 1 (length (filter (fun b => b) bs))).
Proof.
  revert o. induction bs as [|b t IH]; intro o; [split; apply Qle_refl|].
  simpl map. rewrite dsum_cons. destruct (IH (S o)) as [H0 H1].
  pose proof (inv_log_pos o). destruct b; simpl filter; simpl length.
  - change (b2q true) with 1. simpl repeat. rewrite dsum_cons. lra.
  - change (b2q false) with 0. pose proof (dsum_ones_shift o (length (filter (fun b => b) t))).
    assert (H00 : 0 / log2 (o + 2)%nat == 0) by (unfold Qdiv; apply Qmult_0_l). lra.
Qed.

Lemma dsum_ones_pos o c : (0 < c)%nat -> 0 < dsum_from log2 o (repeat 1 c).
Proof.
  intro Hc. destruct c as [|c]; [lia|]. simpl repeat. rewrite dsum_cons.
  pose proof (dsum_ones_nonneg (S o) c) as H1.
  assert (H2 : 0 < 1 / log2 (o + 2)%nat)
    by (unfold Qdiv; rewrite Qmult_1_l; apply Qinv_lt_0_compat, Hlog_pos).
  lra.
Qed.

End NDCGFacts.

(** X13: when [log2] is positive and non-decreasing on [2, 3, ...] and the
    recommended ids are distinct, [calculate_ndcg] returns a value in
    [[0, 1]]. *)
Theorem ndcg_bounds (log2 : nat -> Q)
  (Hlog_pos : forall i, 0 < log2 (i + 2)%nat)
  (Hlog_mono : forall i j, (i <= j)%nat -> log2 (i + 2)%nat <= log2 (j + 2)%nat)
  (recommended_movies test_movies : list Z) (k : Z)
  (Hdistinct : NoDup recommended_movies) :
  0 <= calculate_ndcg log2 recommended_movies test_movies k <= 1.
Proof.
  unfold calculate_ndcg. destruct recommended_movies as [|m0 rest] eqn:Erec; [lra|].
  rewrite <- Erec in *. cbv zeta.
  set (top := py_take k recommended_movies).
  set (bs := map (fun movie_id => existsb (Z.eqb movie_id) test_movies) top).
  set (M := Z.to_nat (Z.min (Z.of_nat (length test_movies)) k)).
  replace (map (fun movie_id => if existsb (Z.eqb movie_id) test_movies then 1 else 0) top)
    with (map b2q bs) by (unfold bs; rewrite map_map; reflexivity).
  destruct (qlt 0 (discounted_sum log2 (repeat 1 M))) eqn:E; [|lra].
  apply qlt_spec in E.
  rewrite !discounted_sum_from in *.
  destruct (dsum_bools log2 Hlog_pos Hlog_mono 0 bs) as [H0 H1].
  assert (Hc : (length (filter (fun b => b) bs) <= M)%nat).
  { assert (HM : (0 < M)%nat).
    { destruct (Nat.eq_dec M 0) as [HM0|HM0]; [|lia].
      rewrite HM0 in E. unfold dsum_from in E. simpl in E. lra. }
    assert (Hk : (0 < k)%Z) by (unfold M in HM; lia).
    assert (Htop : top = firstn (Z.to_nat k) recommended_movies)
      by (unfold top; apply py_take_nonneg; lia).
    assert (Hcount : length (filter (fun b => b) bs)
                     = length (filter (fun movie_id => existsb (Z.eqb movie_id) test_movies) top)).
    { unfold bs. clear. induction top as [|x t IH]; [reflexivity|].
      simpl. destruct (existsb (Z.eqb x) test_movies); simpl; [f_equal|]; exact IH. }
    assert (Hnd : NoDup top).
    { rewrite Htop. rewrite <- (firstn_skipn (Z.to_nat k) recommended_movies) in Hdistinct.
      apply NoDup_app_remove_r in Hdistinct. exact Hdistinct. }
    assert (Hle1 : (length (filter (fun movie_id => existsb (Z.eqb movie_id) test_movies) top)
                    <= length test_movies)%nat).
    { apply NoDup_incl_length; [apply NoDup_filter, Hnd|].
      intros x Hx. apply filter_In in Hx. destruct Hx as [_ Hx].
      apply existsb_exists in Hx. destruct Hx as [y [Hy Hxy]]. apply Z.eqb_eq in Hxy.
      subst. exact Hy. }
    assert (Hle2 : (length (filter (fun movie_id => existsb (Z.eqb movie_id) test_movies) top)
                    <= Z.to_nat k)%nat).
    { etransitivity; [apply filter_length_le|]. rewrite Htop, length_firstn. lia. }
    rewrite Hcount. unfold M. lia. }
  assert (H2 : dsum_from log2 0 (repeat 1 (length (filter (fun b => b) bs)))
               <= dsum_from log2 0 (repeat 1 M)) by (eapply dsum_ones_mono; eauto).
  split.
  - apply Qle_shift_div_l; [exact E | lra].
  - apply Qle_shift_div_r; [exact E | lra].
Qed.

(** *** FuzzySimilarity *)

Lemma py_min_le_l a b : py_min a b <= a.
Proof.
  unfold py_min. destruct (qlt b a) eqn:E; [apply qlt_spec in E; lra | apply Qle_refl].
Qed.

Lemma py_min_le_r a b : py_min a b <= b.
Proof.
  unfold py_min. destruct (qlt b a) eqn:E; [apply Qle_refl | apply qlt_false in E; exact E].
Qed.

Lemma py_min_nonneg a b : 0 <= a -> 0 <= b -> 0 <= py_min a b.
Proof. unfold py_min. destruct (qlt b a); auto. Qed.

Lemma py_min_zero a b : 0 <= a -> 0 <= b -> a == 0 \/ b == 0 -> py_min a b == 0.
Proof.
  intros Ha Hb Hz. pose proof (py_min_le_l a b). pose proof (py_min_le_r a b).
  pose proof (py_min_nonneg a b Ha Hb). destruct Hz; lra.
Qed.

(** Sums of pointwise comparable terms. *)
Lemma fold_plus_mono (l : list string) (f g : string -> Q) (a b : Q) :
  (forall x, In x l -> f x <= g x) -> a <= b ->
  fold_left Qplus (map f l) a <= fold_left Qplus (map g l) b.
Proof.
  revert a b. induction l as [|x l IH]; intros a b Hfg Hab; simpl; [exact Hab|].
  apply IH; [intros; apply Hfg; right; assumption|].
  assert (f x <= g x) by (apply Hfg; left; reflexivity). lra.
Qed.

Lemma fold_plus_double (l : list string) (f g : string -> Q) (a b : Q) :
  (forall x, In x l -> 2 * f x <= g x) -> 2 * a <= b ->
  2 * fold_left Qplus (map f l) a <= fold_left Qplus (map g l) b.
Proof.
  revert a b. induction l as [|x l IH]; intros a b Hfg Hab; simpl; [exact Hab|].
  apply IH; [intros; apply Hfg; right; assumption|].
  assert (2 * f x <= g x) by (apply Hfg; left; reflexivity). lra.
Qed.

Lemma ratio_unit (num den : Q) :
  0 <= num -> num <= den -> 0 <= (if qlt 0 den then num / den else 0) <= 1.
Proof.
  intros H0 H1. destruct (qlt 0 den) eqn:E; [|split; discriminate].
  apply qlt_spec in E. split.
  - apply Qle_shift_div_l; [exact E | lra].
  - apply Qle_shift_div_r; [exact E | lra].
Qed.

Lemma div_zero_num (n d : Q) : n == 0 -> n / d == 0.
Proof. intro H. rewrite H. unfold Qdiv. apply Qmult_0_l. Qed.

(** X15: on profiles with non-negative values, [fuzzy_jaccard] and
    [fuzzy_dice] lie in [[0, 1]]. *)
Theorem jaccard_dice_bounds (A B : dict)
  (HA : forall g, 0 <= get A g) (HB : forall g, 0 <= get B g) :
  0 <= fuzzy_jaccard A B <= 1 /\ 0 <= fuzzy_dice A B <= 1.
Proof.
  assert (Hmin : forall x, In x scored_genres -> 0 <= py_min (get A x) (get B x))
    by (intros; apply py_min_nonneg; auto).
  split.
  - rewrite fuzzy_jaccard_sums. cbv zeta. apply ratio_unit.
    + unfold qsum. apply Qle_trans with (fold_left Qplus (map (fun _ => 0) scored_genres) 0).
      * rewrite (fold_plus_zero scored_genres (fun _ => 0) 0) by (intros; reflexivity). apply Qle_refl.
      * apply fold_plus_mono; [exact Hmin | apply Qle_refl].
    + unfold qsum. apply fold_plus_mono; [|apply Qle_refl].
      intros x _. apply Qle_trans with (get A x); [apply py_min_le_l | apply py_max_ge_l].
  - rewrite fuzzy_dice_sums. cbv zeta. apply ratio_unit.
    + unfold qsum. apply Qle_trans with (2 * fold_left Qplus (map (fun _ => 0) scored_genres) 0).
      * rewrite (fold_plus_zero scored_genres (fun _ => 0) 0) by (intros; reflexivity). lra.
      * apply Qmult_le_l; [reflexivity|]. apply fold_plus_mono; [exact Hmin | apply Qle_refl].
    + unfold qsum. apply fold_plus_double; [|lra].
      intros x _. pose proof (py_min_le_l (get A x) (get B x)).
      pose proof (py_min_le_r (get A x) (get B x)). lra.
Qed.

(** X16: when, on every genre, one of two non-negative profiles is [0], the
    Jaccard, cosine and Dice similarities are [0], and so is every hybrid
    similarity that is returned. *)
Theorem disjoint_profiles_zero (sqrt : Q -> Q) (A B : dict)
  (HA : forall g, 0 <= get A g) (HB : forall g, 0 <= get B g)
  (Hdisj : forall g, In g scored_genres -> get A g == 0 \/ get B g == 0) :
  fuzzy_jaccard A B == 0 /\ fuzzy_cosine sqrt A B == 0 /\ fuzzy_dice A B == 0 /\
  forall weights h, hybrid_similarity sqrt weights A B = Some h -> h == 0.
Proof.
  assert (Hmin : qsum (map (fun g => py_min (get A g) (get B g)) scored_genres) == 0).
  { unfold qsum. rewrite (fold_plus_zero scored_genres (fun g => py_min (get A g) (get B g)) 0);
      [reflexivity|]. intros; apply py_min_zero; auto. }
  assert (Hdot : qsum (map (fun g => get A g * get B g) scored_genres) == 0).
  { unfold qsum. rewrite (fold_plus_zero scored_genres (fun g => get A g * get B g) 0);
      [reflexivity|]. intros x Hx.
    destruct (Hdisj x Hx) as [H|H]; rewrite H; ring. }
  assert (HJ : fuzzy_jaccard A B == 0).
  { rewrite fuzzy_jaccard_sums. cbv zeta. destruct (qlt 0 _); [|reflexivity].
    apply div_zero_num, Hmin. }
  assert (HC : fuzzy_cosine sqrt A B == 0).
  { rewrite fuzzy_cosine_sums. cbv zeta. destruct (_ && _); [|reflexivity].
    apply div_zero_num, Hdot. }
  assert (HD : fuzzy_dice A B == 0).
  { rewrite fuzzy_dice_sums. cbv zeta. destruct (qlt 0 _); [|reflexivity].
    apply div_zero_num. rewrite Hmin. apply Qmult_0_r. }
  split; [exact HJ|]. split; [exact HC|]. split; [exact HD|].
  intros weights h. unfold hybrid_similarity.
  destruct (lookup _ _) as [wj|]; [|discriminate].
  destruct (lookup _ _) as [wc|]; [|discriminate].
  destruct (lookup _ _) as [wd|]; [|discriminate].
  intro H. injection H as <-. rewrite HJ, HC, HD. ring.
Qed.

(** *** generate_recommendations *)

(** X17: every recommendation comes from a catalog movie the user has not
    rated, and carries that movie's id. *)
Theorem recommendations_exclude_rated (sqrt : Q -> Q) (up : user_profile)
  (fuzzy_movies_df : list movie_row) (user_rated_movies : list Z) (top_n : Z)
  (c : candidate) :
  In c (generate_recommendations sqrt up fuzzy_movies_df user_rated_movies top_n) ->
  exists m, In m fuzzy_movies_df /\ ~ In (movie_id m) user_rated_movies /\
            c = make_candidate sqrt up m /\ cand_movie_id c = movie_id m.
Proof.
  unfold generate_recommendations. intro H. apply in_py_take in H.
  apply (Permutation_in _ (Permutation_sym (sort_desc_perm _ _))) in H.
  unfold scored_candidates in H. apply in_map_iff in H. destruct H as [m [<- Hm]].
  unfold unrated_movies in Hm. apply filter_In in Hm. destruct Hm as [Hm Hr].
  exists m. split; [exact Hm|]. split; [|split; reflexivity].
  intro Hin. apply Bool.negb_true_iff in Hr.
  assert (existsb (Z.eqb (movie_id m)) user_rated_movies = true)
    by (apply existsb_exists; exists (movie_id m); split; [exact Hin | apply Z.eqb_refl]).
  congruence.
Qed.

(** X18: for [top_n >= 0], [generate_recommendations] returns
    [min(top_n, P)] recommendations, [P] the number of unrated movies. *)
Theorem generate_recommendations_count (sqrt : Q -> Q) (up : user_profile)
  (fuzzy_movies_df : list movie_row) (user_rated_movies : list Z) (top_n : Z)
  (Hn : (0 <= top_n)%Z) :
  length (generate_recommendations sqrt up fuzzy_movies_df user_rated_movies top_n)
  = Nat.min (Z.to_nat top_n) (available_pool_size fuzzy_movies_df user_rated_movies).
Proof. apply generate_recommendations_length, Hn. Qed.

Lemma in_firstn_in {A} n (l : list A) x : In x (firstn n l) -> In x l.
Proof. intro H. rewrite <- (firstn_skipn n l). apply in_or_app. left. exact H. Qed.

(** X19: [_get_top_movie_genres] returns at most 3 entries of the movie
    profile, in descending order of strength, each with strength above [0.1]. *)
Theorem top_movie_genres_spec (movie_profile : dict) :
  let top := get_top_movie_genres movie_profile in
  (length top <= 3)%nat /\ Sorted (desc snd) top /\
  forall gs, In gs top -> In gs movie_profile /\ 1#10 < snd gs.
Proof.
  unfold get_top_movie_genres. cbv zeta.
  set (l := firstn 3 (sort_desc snd movie_profile)). split; [|split].
  - etransitivity; [apply filter_length_le|]. unfold l. rewrite length_firstn. lia.
  - assert (Hs : Sorted (desc snd) l) by (apply sorted_firstn, sort_desc_sorted).
    clear -Hs. induction l as [|x t IH]; simpl; [constructor|].
    apply Sorted_inv in Hs. destruct Hs as [Ht Hh].
    destruct (qlt (1#10) (snd x)); [|apply IH, Ht].
    constructor; [apply IH, Ht|].
    (* the next kept element is below [x]: sortedness is transitive *)
    assert (Hall : forall y, In y t -> desc snd x y).
    { apply Sorted_StronglySorted in Ht; [|intros a b c' Hab Hbc; unfold desc in *; lra].
      clear IH. revert Hh. induction Ht as [|y u Hu IHu Hyu]; intros Hh y' Hy'; [destruct Hy'|].
      inversion Hh; subst. destruct Hy' as [<-|Hy']; [assumption|].
      apply Forall_forall with (x := y') in Hyu; [|exact Hy']. unfold desc in *. lra. }
    assert (Hsub : forall y, In y (filter (fun gs => qlt (1#10) (snd gs)) t) -> desc snd x y)
      by (intros y Hy; apply filter_In in Hy; apply Hall, Hy).
    destruct (filter (fun gs => qlt (1#10) (snd gs)) t) as [|y u]; constructor.
    apply Hsub. left. reflexivity.
  - intros gs Hgs. apply filter_In in Hgs. destruct Hgs as [Hin Hq].
    split; [|apply qlt_spec, Hq].
    apply in_firstn_in in Hin.
    apply (Permutation_in _ (Permutation_sym (sort_desc_perm _ _))) in Hin. exact Hin.
Qed.

(** *** generate_diverse_recommendations *)

(** The scan keeps the initial best, or picks the first position whose
    score is maximal and above the initial best score. *)
Lemma select_best_argmax df diverse remaining i b bi0 bs bi :
  select_best df diverse i (b, bi0) remaining = Some (bs, bi) ->
  (bi = bi0 /\ bs = b /\ forall c, In c remaining ->
     exists s, mmr_score df diverse c = Some s /\ s <= b) \/
  (exists p c, bi = (i + Z.of_nat p)%Z /\ nth_error remaining p = Some c /\
     mmr_score df diverse c = Some bs /\ b < bs /\
     forall j c', nth_error remaining j = Some c' ->
       exists s, mmr_score df diverse c' = Some s /\ s <= bs /\ ((j < p)%nat -> s < bs)).
Proof.
  revert i b bi0. induction remaining as [|c t IH]; intros i b bi0 H; simpl in H.
  - injection H as -> ->. left. split; [reflexivity|]. split; [reflexivity | intros c []].
  - destruct (mmr_score df diverse c) as [s|] eqn:Es; [|discriminate].
    simpl fst in H. destruct (qlt b s) eqn:Elt.
    + apply qlt_spec in Elt. right. apply IH in H.
      destruct H as [[-> [-> Hall]]|[p [c' [-> [Hn [Hc' [Hlt Hall]]]]]]].
      * exists O, c. split; [lia|]. split; [reflexivity|]. split; [exact Es|].
        split; [exact Elt|]. intros [|j] c'' Hj; simpl in Hj.
        -- injection Hj as <-. exists s. split; [exact Es|]. split; [apply Qle_refl | lia].
        -- apply nth_error_In in Hj. destruct (Hall _ Hj) as [s' [Hs' Hle]].
           exists s'. split; [exact Hs'|]. split; [exact Hle | lia].
      * exists (S p), c'. split; [lia|]. split; [exact Hn|]. split; [exact Hc'|].
        split; [lra|]. intros [|j] c'' Hj; simpl in Hj.
        -- injection Hj as <-. exists s. split; [exact Es|]. split; [lra | intros _; lra].
        -- destruct (Hall _ _ Hj) as [s' [Hs' [Hle Hl]]].
           exists s'. split; [exact Hs'|]. split; [exact Hle | intro; apply Hl; lia].
    + apply qlt_false in Elt. apply IH in H.
      destruct H as [[-> [-> Hall]]|[p [c' [-> [Hn [Hc' [Hlt Hall]]]]]]].
      * left. split; [reflexivity|]. split; [reflexivity|].
        intros c'' [<-|Hc'']; [exists s; split; assumption | apply Hall, Hc''].
      * right. exists (S p), c'. split; [lia|]. split; [exact Hn|]. split; [exact Hc'|].
        split; [exact Hlt|]. intros [|j] c'' Hj; simpl in Hj.
        -- injection Hj as <-. exists s. split; [exact Es|]. split; [lra | intros _; lra].
        -- destruct (Hall _ _ Hj) as [s' [Hs' [Hle Hl]]].
           exists s'. split; [exact Hs'|]. split; [exact Hle | intro; apply Hl; lia].
Qed.

(** X20: when one MMR round picks an index, the candidate there has the
    largest MMR score of the remaining list, above [-1], and every earlier
    candidate scores strictly less. *)
Theorem mmr_pick_is_first_maximum (diversity_factor : Q) (diverse remaining : list candidate)
  (best_score : Q) (best_index : Z)
  (H : select_best diversity_factor diverse 0 (-1, (-1)%Z) remaining
       = Some (best_score, best_index))
  (Hpick : (0 <= best_index)%Z) :
  exists c, nth_error remaining (Z.to_nat best_index) = Some c /\
    mmr_score diversity_factor diverse c = Some best_score /\ -1 < best_score /\
    forall j c', nth_error remaining j = Some c' ->
      exists s, mmr_score diversity_factor diverse c' = Some s /\ s <= best_score /\
                ((j < Z.to_nat best_index)%nat -> s < best_score).
Proof.
  apply select_best_argmax in H.
  destruct H as [[-> _]|[p [c [-> [Hn [Hc [Hlt Hall]]]]]]]; [lia|].
  exists c. rewrite Z.add_0_l, Nat2Z.id. split; [exact Hn|]. split; [exact Hc|].
  split; [exact Hlt | exact Hall].
Qed.

(** The MMR loop only appends to [diverse]. *)
Lemma mmr_loop_prefix top_n df fuel diverse remaining diverse' remaining' :
  mmr_loop top_n df fuel diverse remaining = Some (diverse', remaining') ->
  exists added, diverse' = diverse ++ added.
Proof.
  revert diverse remaining.
  induction fuel as [|fuel IH]; intros diverse remaining H; simpl in H.
  - injection H as <- _. exists []. symmetry. apply app_nil_r.
  - destruct (_ && _).
    + destruct (select_best df diverse 0 (-1, (-1)%Z) remaining) as [[bs bi]|];
        [|discriminate].
      destruct (0 <=? bi)%Z.
      * destruct (pop_at (Z.to_nat bi) remaining) as [[c r']|]; [|discriminate].
        apply IH in H. destruct H as [added ->]. exists (c :: added).
        rewrite <- app_assoc. reflexivity.
      * injection H as <- _. exists []. symmetry. apply app_nil_r.
    + injection H as <- _. exists []. symmetry. apply app_nil_r.
Qed.

Lemma py_take_head {A} (n : Z) (x : A) l y l' :
  py_take n (x :: l) = y :: l' -> y = x.
Proof.
  unfold py_take. destruct (0 <=? n)%Z;
    match goal with |- firstn ?k _ = _ -> _ => destruct k; simpl; congruence end.
Qed.

Lemma py_take_pos_head {A} (n : Z) (x : A) l :
  (1 <= n)%Z -> hd_error (py_take n (x :: l)) = Some x.
Proof.
  intro Hn. rewrite py_take_nonneg by lia.
  destruct (Z.to_nat n) eqn:E; [lia | reflexivity].
Qed.

(** X21: the first item of a diverse recommendation list is the first item
    of [generate_recommendations] for every [top_n >= 1]. *)
Theorem diverse_first_pick_is_top (sqrt : Q -> Q) (up : user_profile)
  (fuzzy_movies_df : list movie_row) (user_rated_movies : list Z) (top_n : Z)
  (diversity_factor : Q) (c : candidate) (l : list candidate)
  (H : generate_diverse_recommendations sqrt up fuzzy_movies_df user_rated_movies top_n
         diversity_factor = Some (c :: l)) :
  forall n, (1 <= n)%Z ->
  hd_error (generate_recommendations sqrt up fuzzy_movies_df user_rated_movies n) = Some c.
Proof.
  intros n Hn. unfold generate_diverse_recommendations, mmr_rerank in H.
  unfold generate_recommendations in *.
  destruct (sort_desc similarity_score (scored_candidates sqrt up fuzzy_movies_df
              user_rated_movies)) as [|x rest] eqn:Es; [discriminate|].
  rewrite py_take_pos_head by exact Hn.
  rewrite py_take_nonneg in H by lia. change (Z.to_nat 50) with 50%nat in H.
  change (firstn 50 (x :: rest)) with (x :: firstn 49 rest) in H.
  cbv beta iota in H.
  destruct (mmr_loop top_n diversity_factor (length (firstn 49 rest)) [x] (firstn 49 rest))
    as [[diverse remaining]|] eqn:El; [|discriminate].
  injection H as H. apply mmr_loop_prefix in El. destruct El as [added ->].
  simpl in H. apply py_take_head in H. rewrite H. reflexivity.
Qed.

(** ** Witnesses of the further properties *)



Lemma precision_at_k_bounds_witness :
  (1 <= 2)%Z /\
  exists p, calculate_precision_at_k [1; 2; 3]%Z [2]%Z 2 = Some p /\ 0 <= p <= 1.
Proof.
  split; [lia|]. exact (precision_at_k_bounds [1; 2; 3]%Z [2]%Z 2 ltac:(lia)).
Defined.

Lemma ndcg_bounds_witness :
  (forall i, 0 < floor_log2 (i + 2)%nat) /\
  (forall i j, (i <= j)%nat -> floor_log2 (i + 2)%nat <= floor_log2 (j + 2)%nat) /\
  NoDup [1; 2; 3]%Z /\
  0 <= calculate_ndcg floor_log2 [1; 2; 3]%Z [2; 5]%Z 2 <= 1.
Proof.
  assert (Hpos : forall i, 0 < floor_log2 (i + 2)%nat).
  { intro i. unfold floor_log2. change 0 with (inject_Z 0). rewrite <- Zlt_Qlt.
    apply Z.log2_pos. lia. }
  assert (Hmono : forall i j, (i <= j)%nat -> floor_log2 (i + 2)%nat <= floor_log2 (j + 2)%nat).
  { intros i j Hij. unfold floor_log2. rewrite <- Zle_Qle. apply Z.log2_le_mono. lia. }
  assert (Hnd : NoDup [1; 2; 3]%Z)
    by (repeat constructor; simpl; intuition discriminate).
  split; [exact Hpos|]. split; [exact Hmono|]. split; [exact Hnd|].
  exact (ndcg_bounds floor_log2 Hpos Hmono _ _ 2 Hnd).
Defined.

Lemma jaccard_dice_bounds_witness :
  let A := profile scenario_user in
  let B := movie_profile_of (MovieRow 1 "M1" [("Comedy", 9#10); ("Romance", 1#2)]%string) in
  (forall g, 0 <= get A g) /\ (forall g, 0 <= get B g) /\
  0 <= fuzzy_jaccard A B <= 1 /\ 0 <= fuzzy_dice A B <= 1.
Proof.
  intros A B.
  assert (HA : forall g, 0 <= get A g) by (apply get_nonneg; vm_compute; reflexivity).
  assert (HB : forall g, 0 <= get B g) by (apply get_nonneg; vm_compute; reflexivity).
  split; [exact HA|]. split; [exact HB|]. exact (jaccard_dice_bounds A B HA HB).
Defined.

Lemma disjoint_profiles_zero_witness :
  let A := profile action_user in
  let B := profile comedy_user in
  (forall g, 0 <= get A g) /\ (forall g, 0 <= get B g) /\
  (forall g, In g scored_genres -> get A g == 0 \/ get B g == 0) /\
  fuzzy_jaccard A B == 0 /\ fuzzy_cosine np_sqrt A B == 0 /\ fuzzy_dice A B == 0 /\
  forall weights h, hybrid_similarity np_sqrt weights A B = Some h -> h == 0.
Proof.
  intros A B.
  assert (HA : forall g, 0 <= get A g) by (apply get_nonneg; vm_compute; reflexivity).
  assert (HB : forall g, 0 <= get B g) by (apply get_nonneg; vm_compute; reflexivity).
  assert (Hd : forall g, In g scored_genres -> get A g == 0 \/ get B g == 0).
  { intros g _. unfold A, B, get. simpl.
    destruct (String.eqb_spec g "Action") as [->|Hne];
      [right; vm_compute; reflexivity | left; reflexivity]. }
  split; [exact HA|]. split; [exact HB|]. split; [exact Hd|].
  exact (disjoint_profiles_zero np_sqrt A B HA HB Hd).
Defined.

Lemma recommendations_exclude_rated_witness :
  match generate_recommendations np_sqrt scenario_user scenario_catalog [2%Z] 5 with
  | c :: _ =>
      exists m, In m scenario_catalog /\ ~ In (movie_id m) [2%Z] /\
                c = make_candidate np_sqrt scenario_user m /\ cand_movie_id c = movie_id m
  | [] => False
  end.
Proof.
  destruct (generate_recommendations np_sqrt scenario_user scenario_catalog [2%Z] 5)
    as [|c l] eqn:E; [vm_compute in E; discriminate|].
  apply (recommendations_exclude_rated np_sqrt scenario_user scenario_catalog [2%Z] 5 c).
  rewrite E. left. reflexivity.
Defined.

Lemma generate_recommendations_count_witness :
  (0 <= 1)%Z /\
  length (generate_recommendations np_sqrt scenario_user scenario_catalog [] 1)
  = Nat.min (Z.to_nat 1) (available_pool_size scenario_catalog []).
Proof.
  split; [lia|].
  exact (generate_recommendations_count np_sqrt scenario_user scenario_catalog [] 1
           ltac:(lia)).
Defined.

Lemma mmr_pick_is_first_maximum_witness :
  match select_best (3#10) [zero_candidate 1] 0 (-1, (-1)%Z)
          [zero_candidate 2; zero_candidate 3] with
  | Some (best_score, best_index) =>
      (0 <= best_index)%Z /\
      exists c, nth_error [zero_candidate 2; zero_candidate 3] (Z.to_nat best_index) = Some c /\
        mmr_score (3#10) [zero_candidate 1] c = Some best_score /\ -1 < best_score /\
        forall j c', nth_error [zero_candidate 2; zero_candidate 3] j = Some c' ->
          exists s, mmr_score (3#10) [zero_candidate 1] c' = Some s /\ s <= best_score /\
                    ((j < Z.to_nat best_index)%nat -> s < best_score)
  | None => False
  end.
Proof.
  destruct (select_best (3#10) [zero_candidate 1] 0 (-1, (-1)%Z)
              [zero_candidate 2; zero_candidate 3]) as [[bs bi]|] eqn:E;
    [|vm_compute in E; discriminate].
  assert (Hbi : (0 <= bi)%Z) by (vm_compute in E; injection E as _ <-; lia).
  split; [exact Hbi|].
  exact (mmr_pick_is_first_maximum (3#10) [zero_candidate 1]
           [zero_candidate 2; zero_candidate 3] bs bi E Hbi).
Defined.

Lemma diverse_first_pick_is_top_witness :
  match generate_diverse_recommendations np_sqrt action_user (action_catalog 3) [] 2 (3#10)
  with
  | Some (c :: _) =>
      forall n, (1 <= n)%Z ->
      hd_error (generate_recommendations np_sqrt action_user (action_catalog 3) [] n) = Some c
  | _ => False
  end.
Proof.
  destruct (generate_diverse_recommendations np_sqrt action_user (action_catalog 3) []
              2 (3#10)) as [[|c l]|] eqn:E; try (vm_compute in E; discriminate).
  exact (diverse_first_pick_is_top np_sqrt action_user (action_catalog 3) [] 2 (3#10) c l E).
Defined.
